(** * superjob_auth: cookie authentication, application submission and the
      search-and-apply driver of [superjob_auth.py], embedded in Rocq.

    The Python program is a client of a remote JSON API.  Its values are
    embedded as a type [json] of parsed JSON documents, its exceptions as a
    sum type [res], and everything outside the program (the HTTP server, the
    cookie cache file, the browser cookie stores, the uuid and clock sources)
    as an environment [Env] of answers that may depend on the whole state of
    the client at the time of the call.  Every call that leaves the program
    is recorded in a trace of events, so that statements about which requests
    are issued, and in which order, are statements about that trace.

    Console output ([print]) is not modelled.  JSON numbers with a fraction or
    an exponent (Python floats) are outside the model: identifiers,
    totals and status codes of this API are strings and integers. *)

From Stdlib Require Import Ascii.
From stdpp Require Import gmap strings list fin_maps pretty.

Local Open Scope string_scope.
Local Open Scope Z_scope.

(** ** Python values *)

(** A parsed JSON document, as [json.load] and [resp.json()] return it.  An
    object keeps its keys in insertion order; [dict_get] reads the first
    binding of a key, and the constructors below never add a second one. *)
#[warnings="-register-all"]
Inductive json : Type :=
| JNull
| JBool (b : bool)
| JInt (z : Z)
| JStr (s : string)
| JList (l : list json)
| JDict (d : list (string * json)).

(** Exceptions the code can meet.  All of them derive from [Exception], so a
    handler [except Exception] catches each one. *)
Inductive exn : Type :=
| TypeError (msg : string)
| AttributeError (msg : string)
| ValueError (msg : string)
| ImportError (msg : string)
| KeyError (msg : string)
| OSError (msg : string)
| RequestException (msg : string).

Definition exn_str (e : exn) : string :=
  match e with
  | TypeError m | AttributeError m | ValueError m | ImportError m
  | KeyError m | OSError m | RequestException m => m
  end.

(** The outcome of a Python expression: a value, or a raised exception. *)
Inductive res (A : Type) : Type :=
| Ok (a : A)
| Raise (e : exn).
Arguments Ok {A} a.
Arguments Raise {A} e.

#[global] Instance res_ret : MRet res := fun A a => Ok a.
#[global] Instance res_bind : MBind res := fun A B k r =>
  match r with
  | Ok a => k a
  | Raise e => Raise e
  end.

(** [try: body  except Exception: handler]. *)
Definition try_except {A} (body : res A) (handler : exn -> res A) : res A :=
  match body with
  | Ok a => Ok a
  | Raise e => handler e
  end.

Fixpoint dict_get {V} (d : list (string * V)) (k : string) : option V :=
  match d with
  | [] => None
  | (k', v) :: d' => if String.eqb k' k then Some v else dict_get d' k
  end.

(** [d[k] = v] on a dict: an existing key keeps its position. *)
Fixpoint dict_set {V} (d : list (string * V)) (k : string) (v : V) : list (string * V) :=
  match d with
  | [] => [(k, v)]
  | (k', v') :: d' => if String.eqb k' k then (k, v) :: d' else (k', v') :: dict_set d' k v
  end.

(** [bool(v)]: the truth value Python gives to [v] in [if v:] and [not v]. *)
Definition py_truthy (v : json) : bool :=
  match v with
  | JNull => false
  | JBool b => b
  | JInt z => negb (z =? 0)
  | JStr s => negb (String.eqb s "")
  | JList l => match l with [] => false | _ => true end
  | JDict d => match d with [] => false | _ => true end
  end.

(** [a == b].  [bool] is a subclass of [int] ([True == 1]); two dicts are
    equal when they have as many keys and equal values under each key. *)
Fixpoint py_eq (a b : json) {struct a} : bool :=
  match a, b with
  | JNull, JNull => true
  | JBool x, JBool y => Bool.eqb x y
  | JBool x, JInt y => Z.b2z x =? y
  | JInt x, JBool y => x =? Z.b2z y
  | JInt x, JInt y => x =? y
  | JStr x, JStr y => String.eqb x y
  | JList xs, JList ys =>
      (fix go (xs ys : list json) {struct xs} : bool :=
         match xs, ys with
         | [], [] => true
         | x :: xs', y :: ys' => py_eq x y && go xs' ys'
         | _, _ => false
         end) xs ys
  | JDict xs, JDict ys =>
      (length xs =? length ys)%nat &&
      (fix go (xs : list (string * json)) {struct xs} : bool :=
         match xs with
         | [] => true
         | (k, v) :: xs' =>
             match dict_get ys k with
             | Some v' => py_eq v v'
             | None => false
             end && go xs'
         end) xs
  | _, _ => false
  end.

(** [obj.get(key, default)]: only a dict has the method. *)
Definition py_get (obj : json) (key : string) (dflt : json) : res json :=
  match obj with
  | JDict d => Ok (default dflt (dict_get d key))
  | _ => Raise (AttributeError "object has no attribute 'get'")
  end.

(** [for item in v]: the items a [for] loop visits.  A list yields its
    elements, a string its characters, a dict its keys; nothing else is
    iterable. *)
Fixpoint py_chars (s : string) : list json :=
  match s with
  | EmptyString => []
  | String c s' => JStr (String c EmptyString) :: py_chars s'
  end.

Definition py_iter (v : json) : res (list json) :=
  match v with
  | JList l => Ok l
  | JStr s => Ok (py_chars s)
  | JDict d => Ok (JStr <$> d.*1)
  | _ => Raise (TypeError "object is not iterable")
  end.

(** ** Chat-id extraction *)

(** First loop of [_extract_chat_id]: [Some id] is [return item.get("id")],
    [None] is falling out of the loop. *)
Fixpoint find_chat (items : list json) : res (option json) :=
  match items with
  | [] => Ok None
  | item :: rest =>
      ty ← py_get item "type" JNull;
      if py_eq ty (JStr "chat")
      then id ← py_get item "id" JNull; Ok (Some id)
      else find_chat rest
  end.

(** Second loop of [_extract_chat_id]. *)
Fixpoint find_vacancy_response (vr_id : json) (items : list json) : res (option json) :=
  match items with
  | [] => Ok None
  | item :: rest =>
      ty ← py_get item "type" JNull;
      matched ← (if py_eq ty (JStr "vacancyResponse")
                 then id ← py_get item "id" JNull; Ok (py_eq id vr_id)
                 else Ok false);
      if matched : bool
      then rels ← py_get item "relationships" (JDict []);
           chat ← py_get rels "chat" (JDict []);
           chat_data ← py_get chat "data" (JDict []);
           id ← py_get chat_data "id" JNull;
           Ok (Some id)
      else find_vacancy_response vr_id rest
  end.

(** The body of the [try] block; [JNull] is Python's [None]. *)
Definition extract_chat_id_body (response : json) : res json :=
  included ← py_get response "included" (JList []);
  items ← py_iter included;
  hit ← find_chat items;
  match hit with
  | Some id => Ok id
  | None =>
      data ← py_get response "data" (JDict []);
      relationships ← py_get data "relationships" (JDict []);
      vr ← py_get relationships "vacancyResponse" (JDict []);
      vacancy_response ← py_get vr "data" (JDict []);
      vr_id ← py_get vacancy_response "id" JNull;
      if py_truthy vr_id
      then items' ← py_iter included;
           hit' ← find_vacancy_response vr_id items';
           Ok (default JNull hit')
      else Ok JNull
  end.

(** [except Exception: pass], then [return None]. *)
Definition _extract_chat_id (response : json) : res json :=
  try_except (extract_chat_id_body response) (fun _ => Ok JNull).

(** ** Strings *)

(** [needle in hay] on two strings. *)
Fixpoint substring_in (needle hay : string) : bool :=
  String.prefix needle hay ||
  match hay with
  | EmptyString => false
  | String _ hay' => substring_in needle hay'
  end.

(** The characters [str.strip()] removes, among the ASCII ones. *)
Definition is_space (c : Ascii.ascii) : bool :=
  let n := Ascii.N_of_ascii c in
  ((9 <=? n) && (n <=? 13) || (28 <=? n) && (n <=? 32))%N.

Fixpoint lstrip (s : string) : string :=
  match s with
  | String c s' => if is_space c then lstrip s' else s
  | EmptyString => EmptyString
  end.

Fixpoint rstrip (s : string) : string :=
  match s with
  | EmptyString => EmptyString
  | String c s' =>
      match rstrip s' with
      | EmptyString => if is_space c then EmptyString else String c EmptyString
      | t => String c t
      end
  end.

Definition py_strip (s : string) : string := rstrip (lstrip s).

(** [s.split("=", 1)] when ["=" in s]: the text before and after the first
    equals sign. *)
Fixpoint split_eq (s : string) : option (string * string) :=
  match s with
  | EmptyString => None
  | String c s' =>
      if Ascii.eqb c "="%char then Some (EmptyString, s')
      else match split_eq s' with
           | Some (a, b) => Some (String c a, b)
           | None => None
           end
  end.

Definition ascii_lower (c : Ascii.ascii) : Ascii.ascii :=
  let n := Ascii.N_of_ascii c in
  if ((65 <=? n) && (n <=? 90))%N then Ascii.ascii_of_N (n + 32) else c.

Fixpoint str_lower (s : string) : string :=
  match s with
  | EmptyString => EmptyString
  | String c s' => String (ascii_lower c) (str_lower s')
  end.

(** ** The client and its environment *)

(** [SuperjobConfig]: the values read from [.env]. *)
Module SuperjobConfig.
Record t : Type := {
  browser : string;
  resume_id : string;
  search_keywords : list string;
  search_limit : Z;
  max_pages : Z;
  cover_letter : string
}.
End SuperjobConfig.

(** What [resp.json() if resp.text else {}] meets: an empty text, a text that
    parses, or one on which [resp.json()] raises. *)
Inductive http_body : Type :=
| BodyEmpty
| BodyJson (j : json)
| BodyInvalid (e : exn).

Record response : Type := {
  status_code : Z;
  headers : list (string * string);
  body : http_body
}.

(** A request either raises (a transport failure) or returns a response. *)
Inductive http_outcome : Type :=
| HttpRaise (e : exn)
| HttpResp (r : response).

(** The cookie cache file, as [_load_cached_cookies] finds it. *)
Inductive cache_file : Type :=
| CacheAbsent
| CacheContent (j : json)
| CacheError (e : exn).

(** Calls that leave the program, each with the answer it got. *)
Inductive event : Type :=
| EvCacheLoad (c : cache_file)
| EvCacheSave (cookies : json)
| EvImportBrowserCookie3 (found : bool)
| EvBrowserCookies (br : string) (cj : res (list (string * json)))
| EvOpenFile (filepath : string) (lines : res (list string))
| EvGet (url : string) (params : list (string * json)) (allow_redirects : bool)
        (out : http_outcome)
| EvPost (url : string) (params : list (string * json)) (payload : json)
         (out : http_outcome)
| EvUuid4 (u : string)
| EvNow (iso : string).

(** An element of [applied_ids]: what a vacancy id is to [in] and [add] on a
    set.  [None], integers and strings are told apart; [True] and [False] are
    the integers 1 and 0. *)
Abbreviation hkey := (unit + Z + string)%type.

(** A cookie of the jar is stored under its domain, path and name. *)
Abbreviation cookie_key := (string * string * string)%type.

(** A [SuperjobAPI] object: its configuration, the cookie jar of its
    [requests.Session] (whose headers are fixed at construction), and the
    calls made so far. *)
Record api : Type := {
  config : SuperjobConfig.t;
  cookies : gmap cookie_key json;
  trace : list event
}.

(** The environment: every answer may depend on the client's state, hence on
    the jar and on all earlier calls and answers. *)
Record Env : Type := {
  env_cache_file : api -> cache_file;
  env_import_browser_cookie3 : api -> bool;
  env_browser_cookies : api -> string -> res (list (string * json));
  env_open_lines : api -> string -> res (list string);
  env_get : api -> string -> list (string * json) -> bool -> http_outcome;
  env_post : api -> string -> list (string * json) -> json -> http_outcome;
  env_uuid4 : api -> string;
  env_now : api -> string;
  (** [str()] of a list or a dict, for f-strings. *)
  env_repr : json -> string
}.

(** Stateful, fallible code: the state survives a raised exception. *)
Definition M (A : Type) : Type := api -> res A * api.

#[global] Instance M_ret : MRet M := fun A a st => (Ok a, st).
#[global] Instance M_bind : MBind M := fun A B k m st =>
  match m st with
  | (Ok a, st') => k a st'
  | (Raise e, st') => (Raise e, st')
  end.

Definition lift {A} (r : res A) : M A := fun st => (r, st).
Definition raise {A} (e : exn) : M A := lift (Raise e).

Definition m_try {A} (body : M A) (handler : exn -> M A) : M A := fun st =>
  match body st with
  | (Ok a, st') => (Ok a, st')
  | (Raise e, st') => handler e st'
  end.

Fixpoint m_for {A} (l : list A) (body : A -> M unit) : M unit :=
  match l with
  | [] => mret ()
  | a :: l' => body a ;; m_for l' body
  end.

Definition add_event (e : event) (st : api) : api :=
  {| config := config st; cookies := cookies st; trace := trace st ++ [e] |}.

Definition set_cookies (jar : gmap cookie_key json) (st : api) : api :=
  {| config := config st; cookies := jar; trace := trace st |}.

Definition get_config : M SuperjobConfig.t := fun st => (Ok (config st), st).

Definition BASE_URL : string := "https://www.superjob.ru".
Definition API_URL : string := "https://www.superjob.ru/jsapi3/0.1".

(** [str(v)], as an f-string formats [v]. *)
Definition py_str (repr : json -> string) (v : json) : string :=
  match v with
  | JNull => "None"
  | JBool true => "True"
  | JBool false => "False"
  | JInt z => pretty z
  | JStr s => s
  | _ => repr v
  end.

(** [resp.headers.get(name, "")]: header names compare without case. *)
Fixpoint header_get (hs : list (string * string)) (name : string) : option string :=
  match hs with
  | [] => None
  | (k, v) :: hs' =>
      if String.eqb (str_lower k) (str_lower name) then Some v else header_get hs' name
  end.

Section Client.
Variable env : Env.

Definition session_get (url : string) (params : list (string * json))
    (allow_redirects : bool) : M response := fun st =>
  let out := env_get env st url params allow_redirects in
  let st' := add_event (EvGet url params allow_redirects out) st in
  match out with
  | HttpRaise e => (Raise e, st')
  | HttpResp r => (Ok r, st')
  end.

Definition session_post (url : string) (params : list (string * json))
    (payload : json) : M response := fun st =>
  let out := env_post env st url params payload in
  let st' := add_event (EvPost url params payload out) st in
  match out with
  | HttpRaise e => (Raise e, st')
  | HttpResp r => (Ok r, st')
  end.

Definition uuid4 : M string := fun st =>
  let u := env_uuid4 env st in (Ok u, add_event (EvUuid4 u) st).

Definition now_isoformat : M string := fun st =>
  let t := env_now env st in (Ok t, add_event (EvNow t) st).

(** [resp.json()]. *)
Definition resp_json (r : response) : res json :=
  match body r with
  | BodyJson j => Ok j
  | BodyInvalid e => Raise e
  | BodyEmpty => Raise (ValueError "Expecting value")
  end.

(** [resp.text], as a truth value. *)
Definition resp_has_text (r : response) : bool :=
  match body r with
  | BodyEmpty => false
  | _ => true
  end.

(** *** Authentication *)

Definition check_auth : M bool :=
  m_try
    (resp ← session_get (BASE_URL +:+ "/user/resume/") [] false;
     if (status_code resp =? 302)
        && substring_in "login" (default "" (header_get (headers resp) "Location"))
     then mret false
     else mret (status_code resp =? 200))
    (fun _ => mret false).

(** [jar.set(name, value, domain=".superjob.ru", path="/")] on a
    [RequestsCookieJar]: a [None] value removes the cookie stored under that
    domain, path and name, any other value is stored there. *)
Definition jar_set (name : string) (value : json) (jar : gmap cookie_key json)
    : gmap cookie_key json :=
  let key : cookie_key := (".superjob.ru", "/", name) in
  match value with
  | JNull => delete key jar
  | _ => <[key := value]> jar
  end.

Definition cookie_set (name : string) (value : json) : M unit := fun st =>
  (Ok (), set_cookies (jar_set name value (cookies st)) st).

(** The dict [cookies] of [auth_with_cookies]. *)
Definition cookie_values (uat sat sask geo geo_confirmed geo_set login_auth_type : json)
    : list (string * json) :=
  [ ("uat", uat); ("sat", sat); ("sask", sask); ("geo", geo);
    ("geoConfirmed", geo_confirmed); ("geoSet", geo_set);
    ("loginAuthType", login_auth_type);
    ("initialGeoConfirmationShow", JStr "1") ].

Definition auth_with_cookies (uat sat sask geo geo_confirmed geo_set login_auth_type : json)
    : M bool :=
  let cookies := cookie_values uat sat sask geo geo_confirmed geo_set login_auth_type in
  m_for cookies (fun '(name, value) => cookie_set name value) ;;
  check_auth.

Definition _load_cached_cookies : M json := fun st =>
  let c := env_cache_file env st in
  (Ok (match c with
       | CacheContent j => j
       | CacheAbsent | CacheError _ => JNull
       end), add_event (EvCacheLoad c) st).

Definition _save_cookies_to_cache (cookies : list (string * json)) : M unit := fun st =>
  (Ok (), add_event (EvCacheSave (JDict cookies)) st).

(** [k in container]. *)
Definition py_contains (container : json) (k : string) : res bool :=
  match container with
  | JDict d => Ok (bool_decide (is_Some (dict_get d k)))
  | JList l => Ok (existsb (py_eq (JStr k)) l)
  | JStr s => Ok (substring_in k s)
  | _ => Raise (TypeError "argument is not iterable")
  end.

(** [all(k in container for k in required)]. *)
Fixpoint py_all_in (container : json) (required : list string) : res bool :=
  match required with
  | [] => Ok true
  | k :: rest =>
      b ← py_contains container k;
      if b : bool then py_all_in container rest else Ok false
  end.

Definition required : list string := ["uat"; "sat"; "sask"].

Definition _auth_with_cached_cookies : M bool :=
  cached ← _load_cached_cookies;
  if negb (py_truthy cached) then mret false
  else
    present ← lift (py_all_in cached required);
    if negb present then mret false
    else
      uat ← lift (py_get cached "uat" JNull);
      sat ← lift (py_get cached "sat" JNull);
      sask ← lift (py_get cached "sask" JNull);
      geo ← lift (py_get cached "geo" (JStr "1687"));
      geo_confirmed ← lift (py_get cached "geoConfirmed" (JStr "1"));
      geo_set ← lift (py_get cached "geoSet" (JStr "1"));
      login_auth_type ← lift (py_get cached "loginAuthType" (JStr "applicant"));
      auth_with_cookies uat sat sask geo geo_confirmed geo_set login_auth_type.

(** [import browser_cookie3], which [auth_from_browser] turns into its own
    [ImportError]. *)
Definition import_browser_cookie3 : M unit := fun st =>
  let found := env_import_browser_cookie3 env st in
  let st' := add_event (EvImportBrowserCookie3 found) st in
  if found then (Ok (), st')
  else (Raise (ImportError "pip install browser_cookie3"), st').

(** [browser_funcs[br](domain_name=".superjob.ru")], and the cookies the
    returned jar yields. *)
Definition browser_cookies (br : string) : M (list (string * json)) := fun st =>
  let cj := env_browser_cookies env st br in
  (cj, add_event (EvBrowserCookies br cj) st).

Definition browser_funcs : list string := ["chrome"; "firefox"; "edge"; "safari"].

(** [cookies = {}; for cookie in cj: cookies[cookie.name] = cookie.value]. *)
Definition cookie_dict (cj : list (string * json)) : list (string * json) :=
  foldl (fun d '(name, value) => dict_set d name value) [] cj.

(** [[k for k in required if k not in cookies]]. *)
Definition missing_of (cookies : list (string * json)) : list string :=
  filter (fun k => dict_get cookies k = None) required.

Definition dict_get_or (d : list (string * json)) (k : string) (dflt : json) : json :=
  default dflt (dict_get d k).

(** One turn of the loop over [browsers_to_try], inside its [try]: [true] is
    [return True], [false] is going on to the next browser.  ([last_error]
    only feeds [print].) *)
Definition try_browser (br : string) : M bool :=
  m_try
    (cj ← browser_cookies br;
     let cookies := cookie_dict cj in
     match missing_of cookies with
     | _ :: _ => mret false
     | [] =>
         result ← auth_with_cookies
                    (dict_get_or cookies "uat" JNull)
                    (dict_get_or cookies "sat" JNull)
                    (dict_get_or cookies "sask" JNull)
                    (dict_get_or cookies "geo" (JStr "1687"))
                    (dict_get_or cookies "geoConfirmed" (JStr "1"))
                    (dict_get_or cookies "geoSet" (JStr "1"))
                    (dict_get_or cookies "loginAuthType" (JStr "applicant"));
         if result : bool
         then _save_cookies_to_cache cookies ;; mret true
         else mret false
     end)
    (fun _ => mret false).

Fixpoint try_browsers (browsers_to_try : list string) : M bool :=
  match browsers_to_try with
  | [] => mret false
  | br :: rest =>
      done ← try_browser br;
      if done : bool then mret true else try_browsers rest
  end.

Definition auth_from_browser (browser : string) (force_refresh : bool) : M bool :=
  cached_ok ← (if force_refresh then mret false else _auth_with_cached_cookies);
  if cached_ok : bool then mret true
  else
    import_browser_cookie3 ;;
    browsers_to_try ←
      (if String.eqb browser "auto" then mret ["firefox"; "chrome"; "edge"; "safari"]
       else if bool_decide (browser ∈ browser_funcs) then mret [browser]
       else raise (ValueError ("unknown browser: " +:+ browser)));
    try_browsers browsers_to_try.


(** The loop of [auth_from_file] over the lines of the cookie file. *)
Definition parse_cookie_lines (lines : list string) : list (string * json) :=
  foldl (fun d line =>
           let line := py_strip line in
           if negb (String.eqb line "") && substring_in "=" line
           then match split_eq line with
                | Some (name, value) => dict_set d (py_strip name) (JStr (py_strip value))
                | None => d
                end
           else d) [] lines.


(** *** Application submission *)

(** The result dict of [send_message]. *)
Record message_result : Type := {
  mr_success : bool;
  mr_status_code : option Z;
  mr_response : option json;
  mr_error : option string
}.

(** The result dict of [apply_to_vacancy]; an absent key is [None]. *)
Record apply_result : Type := {
  ar_success : bool;
  ar_status_code : option Z;
  ar_response : option json;
  ar_chat_id : json;
  ar_chat_url : option string;
  ar_cover_letter_sent : option bool;
  ar_error : option string
}.

Definition resource (id : json) (type : string) (rest : list (string * json)) : json :=
  JDict ([("id", id); ("type", JStr type)] ++ rest).

Definition ref_to (id : json) (type : string) : json :=
  JDict [("data", JDict [("id", id); ("type", JStr type)])].

Definition message_payload (message_id simple_message_id now : string)
    (chat_id : json) (message : string) : json :=
  JDict [
    ("data", resource (JStr message_id) "chatMessage" [
       ("attributes", JDict [("createdOnClientAt", JStr now)]);
       ("relationships", JDict [
          ("chat", ref_to chat_id "chat");
          ("simpleMessage", ref_to (JStr simple_message_id) "simpleChatMessage")])]);
    ("included", JList [
       resource chat_id "chat" [("attributes", JDict [])];
       resource (JStr simple_message_id) "simpleChatMessage"
         [("attributes", JDict [("message", JStr message)])]])].

Definition message_include : string :=
  "chat,hr,messageType,simpleMessage,inviteMessage.vacancy.mainInfo,inviteMessage.vacancy.companyInfo,vacancyResponseMessage.vacancy.mainInfo,vacancyResponseMessage.vacancy.companyInfo".

Definition status_ok (status : Z) : bool := (status =? 200) || (status =? 201).

Definition send_message (chat_id : json) (message : string) : M message_result :=
  message_id ← uuid4;
  simple_message_id ← uuid4;
  now ← now_isoformat;
  let payload := message_payload message_id simple_message_id now chat_id message in
  m_try
    (resp ← session_post (API_URL +:+ "/chatMessage/")
                         [("include", JStr message_include)] payload;
     response ← (if resp_has_text resp then lift (resp_json resp) else mret (JDict []));
     mret {| mr_success := status_ok (status_code resp);
             mr_status_code := Some (status_code resp);
             mr_response := Some response;
             mr_error := None |})
    (fun e => mret {| mr_success := false; mr_status_code := None;
                      mr_response := None; mr_error := Some (exn_str e) |}).

Definition application_payload (cv_app_id vacancy_response_id cv_app_type_id : string)
    (vacancy_id : json) (resume_id : string) (no_work_experience : bool) : json :=
  JDict [
    ("data", resource (JStr cv_app_id) "cvApplication" [
       ("attributes", JDict []);
       ("relationships", JDict [
          ("vacancyResponse", ref_to (JStr vacancy_response_id) "vacancyResponse")])]);
    ("included", JList [
       resource (JStr vacancy_response_id) "vacancyResponse" [
         ("attributes", JDict [("noWorkExperience", JBool no_work_experience)]);
         ("relationships", JDict [
            ("resume", ref_to (JStr resume_id) "resume");
            ("vacancy", ref_to vacancy_id "vacancy");
            ("cvApplicationType", ref_to (JStr cv_app_type_id) "cvApplicationType")])];
       resource vacancy_id "vacancy" [("attributes", JDict [])];
       resource (JStr resume_id) "resume" [("attributes", JDict [])];
       resource (JStr cv_app_type_id) "cvApplicationType" [
         ("attributes", JDict []);
         ("relationships", JDict [
            ("responseType", ref_to (JStr "default") "cvApplicationTypeDictionary")])];
       resource (JStr "default") "cvApplicationTypeDictionary" [("attributes", JDict [])]])].

Definition application_include : string :=
  "vacancyResponse,vacancyResponse.vacancy.resumeInteractions.status,vacancyResponse.vacancy.resumeInteractions.resume,vacancyResponse.vacancy.resumeInteractions.vacancyResponse,vacancyResponse.vacancy.detailInfo,vacancyResponse.vacancy.contactInfo,vacancyResponse.chat.resume,vacancyResponse.chat.company,vacancyResponse.resume,vacancyResponse.cvApplicationType.responseType,vacancyResponse.responseSource.sourceName".

(** [bool(cover_letter)] for [cover_letter : Optional[str]]. *)
Definition letter_truthy (cover_letter : option string) : bool :=
  match cover_letter with
  | Some s => negb (String.eqb s "")
  | None => false
  end.

Definition apply_to_vacancy (vacancy_id : json) (resume_id : string)
    (cover_letter : option string) (no_work_experience : bool) : M apply_result :=
  cv_app_id ← uuid4;
  vacancy_response_id ← uuid4;
  cv_app_type_id ← uuid4;
  let payload := application_payload cv_app_id vacancy_response_id cv_app_type_id
                   vacancy_id resume_id no_work_experience in
  m_try
    (resp ← session_post (API_URL +:+ "/cvApplication/")
                         [("include", JStr application_include)] payload;
     response ← (if resp_has_text resp then lift (resp_json resp) else mret (JDict []));
     let success := status_ok (status_code resp) in
     let result := {| ar_success := success;
                      ar_status_code := Some (status_code resp);
                      ar_response := Some response;
                      ar_chat_id := JNull;
                      ar_chat_url := None;
                      ar_cover_letter_sent := None;
                      ar_error := None |} in
     if success && py_truthy response
     then
       chat_id ← lift (_extract_chat_id response);
       let chat_url :=
         if py_truthy chat_id
         then Some (BASE_URL +:+ "/chat/?chatId=" +:+ py_str (env_repr env) chat_id)
         else None in
       if py_truthy chat_id && letter_truthy cover_letter
       then
         cfg ← get_config;
         let letter := if bool_decide (cover_letter = Some "default")
                       then SuperjobConfig.cover_letter cfg
                       else default "" cover_letter in
         msg_result ← send_message chat_id letter;
         mret {| ar_success := success;
                 ar_status_code := Some (status_code resp);
                 ar_response := Some response;
                 ar_chat_id := chat_id;
                 ar_chat_url := chat_url;
                 ar_cover_letter_sent := Some (mr_success msg_result);
                 ar_error := None |}
       else mret {| ar_success := success;
                    ar_status_code := Some (status_code resp);
                    ar_response := Some response;
                    ar_chat_id := chat_id;
                    ar_chat_url := chat_url;
                    ar_cover_letter_sent := None;
                    ar_error := None |}
     else mret result)
    (fun e => mret {| ar_success := false; ar_status_code := None; ar_response := None;
                      ar_chat_id := JNull; ar_chat_url := None;
                      ar_cover_letter_sent := None; ar_error := Some (exn_str e) |}).

(** *** Search *)

(** A vacancy dict of [search_vacancies]. *)
Record vacancy : Type := {
  v_id : json;
  v_title : json;
  v_company : json;
  v_salary_min : json;
  v_salary_max : json;
  v_url : string
}.

(** The dict [search_vacancies] returns; both keys are always there. *)
Record search_result : Type := {
  total : json;
  vacancies : list vacancy
}.

Definition no_results : search_result := {| total := JInt 0; vacancies := [] |}.

(** [obj[key]] for a string [key]. *)
Definition py_item (obj : json) (key : string) : res json :=
  match obj with
  | JDict d => match dict_get d key with
               | Some v => Ok v
               | None => Raise (KeyError key)
               end
  | _ => Raise (TypeError "indices must be integers")
  end.

Fixpoint build_included_map (items : list json) (included_map : list (string * json))
    : res (list (string * json)) :=
  match items with
  | [] => Ok included_map
  | item :: rest =>
      ty ← py_item item "type";
      id ← py_item item "id";
      let key := py_str (env_repr env) ty +:+ "_" +:+ py_str (env_repr env) id in
      build_included_map rest (dict_set included_map key item)
  end.

(** [rels.get(name, {}).get("data", {}).get("id")]. *)
Definition related_id (rels : json) (name : string) : res json :=
  r ← py_get rels name (JDict []);
  d ← py_get r "data" (JDict []);
  py_get d "id" JNull.

Definition build_vacancy (included_map : list (string * json)) (item : json) : res vacancy :=
  vid ← py_get item "id" JNull;
  rels ← py_get item "relationships" (JDict []);
  main_id ← related_id rels "mainInfo";
  main ← py_get (dict_get_or included_map
                   ("vacancyMainInfo_" +:+ py_str (env_repr env) main_id) (JDict []))
                "attributes" (JDict []);
  company_id ← related_id rels "companyInfo";
  company ← py_get (dict_get_or included_map
                      ("vacancyCompanyInfo_" +:+ py_str (env_repr env) company_id) (JDict []))
                   "attributes" (JDict []);
  title ← py_get main "profession" (JStr "");
  name ← py_get company "name" (JStr "");
  salary_min ← py_get main "minSalary" (JInt 0);
  salary_max ← py_get main "maxSalary" (JInt 0);
  Ok {| v_id := vid; v_title := title; v_company := name;
        v_salary_min := salary_min; v_salary_max := salary_max;
        v_url := BASE_URL +:+ "/vakansii/" +:+ py_str (env_repr env) vid +:+ ".html" |}.

Fixpoint build_vacancies (included_map : list (string * json)) (items : list json)
    : res (list vacancy) :=
  match items with
  | [] => Ok []
  | item :: rest =>
      v ← build_vacancy included_map item;
      vs ← build_vacancies included_map rest;
      Ok (v :: vs)
  end.

(** What [search_vacancies] makes of a response, inside its [try]. *)
Definition search_result_of (resp : response) : res search_result :=
  if status_code resp =? 200
  then
    data ← resp_json resp;
    meta ← py_get data "meta" (JDict []);
    total ← py_get meta "total" (JInt 0);
    included ← py_get data "included" (JList []);
    included_items ← py_iter included;
    included_map ← build_included_map included_items [];
    items ← py_get data "data" (JList []);
    items ← py_iter items;
    vacancies ← build_vacancies included_map items;
    Ok {| total := total; vacancies := vacancies |}
  else Ok no_results.

Definition search_url : string := API_URL +:+ "/vacancy/".

Definition search_params (keywords : string) (limit offset : Z) : list (string * json) :=
  [ ("page[limit]", JInt limit); ("page[offset]", JInt offset);
    ("filters[keywords]", JStr keywords); ("include", JStr "mainInfo,companyInfo") ].

Definition search_vacancies (keywords : string) (limit offset : Z) : M search_result :=
  m_try
    (resp ← session_get search_url (search_params keywords limit offset) true;
     lift (search_result_of resp))
    (fun _ => mret no_results).

(** *** The search-and-apply driver *)

(** [hash(v)]: lists and dicts are unhashable. *)
Definition hash_key (v : json) : res hkey :=
  match v with
  | JNull => Ok (inl (inl ()))
  | JBool b => Ok (inl (inr (Z.b2z b)))
  | JInt z => Ok (inl (inr z))
  | JStr s => Ok (inr s)
  | _ => Raise (TypeError "unhashable type")
  end.

(** An element of [stats["results"]]. *)
Record entry : Type := {
  e_vacancy_id : json;
  e_title : json;
  e_company : json;
  e_success : bool;
  e_chat_url : option string;
  e_cover_letter_sent : option bool;
  e_error : option string
}.

Record stats : Type := {
  total_found : Z;
  applied : Z;
  failed : Z;
  skipped : Z;
  results : list entry
}.

(** What [auto_apply] returns: [{"error": ...}] or the statistics. *)
Inductive auto_apply_result : Type :=
| AutoError (msg : string)
| AutoStats (s : stats).

(** [range(n)]. *)
Definition py_range (n : Z) : list Z := Z.of_nat <$> seq 0 (Z.to_nat n).

(** [x >= total] for an integer [x]. *)
Definition py_ge (x : Z) (total : json) : res bool :=
  match total with
  | JInt t => Ok (t <=? x)
  | JBool b => Ok (Z.b2z b <=? x)
  | _ => Raise (TypeError "'>=' not supported")
  end.

(** The loop [for page in range(max_pages)] for one keyword; [all_vacancies]
    is the list gathered so far.  (The [print] of page 0 evaluates
    [min(total, limit * max_pages)], which raises [TypeError] for the very
    totals on which the comparison below raises it.) *)
Fixpoint fetch_pages (kw : string) (limit : Z) (pages : list Z)
    (all_vacancies : list vacancy) : M (list vacancy) :=
  match pages with
  | [] => mret all_vacancies
  | page :: rest =>
      let offset := page * limit in
      search_result ← search_vacancies kw limit offset;
      match vacancies search_result with
      | [] => mret all_vacancies
      | _ :: _ =>
          let all_vacancies := (all_vacancies ++ vacancies search_result)%list in
          reached ← lift (py_ge (offset + limit) (total search_result));
          if reached : bool then mret all_vacancies
          else fetch_pages kw limit rest all_vacancies
      end
  end.

Definition add_skipped (s : stats) : stats :=
  {| total_found := total_found s; applied := applied s; failed := failed s;
     skipped := skipped s + 1; results := results s |}.

Definition add_found (n : Z) (s : stats) : stats :=
  {| total_found := total_found s + n; applied := applied s; failed := failed s;
     skipped := skipped s; results := results s |}.

(** The counter update and [stats["results"].append(entry)] after one
    application. *)
Definition add_result (v : vacancy) (result : apply_result) (s : stats) : stats :=
  let entry := {| e_vacancy_id := v_id v; e_title := v_title v; e_company := v_company v;
                  e_success := ar_success result;
                  e_chat_url := ar_chat_url result;
                  e_cover_letter_sent := ar_cover_letter_sent result;
                  e_error := None |} in
  if ar_success result
  then {| total_found := total_found s; applied := applied s + 1; failed := failed s;
          skipped := skipped s; results := results s ++ [entry] |}
  else {| total_found := total_found s; applied := applied s; failed := failed s + 1;
          skipped := skipped s;
          results := results s ++
            [ {| e_vacancy_id := e_vacancy_id entry; e_title := e_title entry;
                 e_company := e_company entry; e_success := e_success entry;
                 e_chat_url := e_chat_url entry;
                 e_cover_letter_sent := e_cover_letter_sent entry;
                 e_error := Some (default
                                    (from_option (fun c => pretty c) "None"
                                       (ar_status_code result))
                                    (ar_error result)) |} ] |}.

(** The loop [for v in all_vacancies]. *)
Fixpoint apply_all (resume_id : string) (vs : list vacancy)
    (s : stats) (applied_ids : gset hkey) : M (stats * gset hkey) :=
  match vs with
  | [] => mret (s, applied_ids)
  | v :: rest =>
      let vid := v_id v in
      h ← lift (hash_key vid);
      if bool_decide (h ∈ applied_ids)
      then apply_all resume_id rest (add_skipped s) applied_ids
      else
        let applied_ids := {[h]} ∪ applied_ids in
        result ← apply_to_vacancy vid resume_id (Some "default") false;
        apply_all resume_id rest (add_result v result s) applied_ids
  end.

(** The loop [for kw in keywords]. *)
Fixpoint apply_keywords (keywords : list string) (limit max_pages : Z)
    (resume_id : string) (s : stats) (applied_ids : gset hkey)
    : M (stats * gset hkey) :=
  match keywords with
  | [] => mret (s, applied_ids)
  | kw :: rest =>
      all_vacancies ← fetch_pages kw limit (py_range max_pages) [];
      let s := add_found (Z.of_nat (length all_vacancies)) s in
      '(s, applied_ids) ← apply_all resume_id all_vacancies s applied_ids;
      apply_keywords rest limit max_pages resume_id s applied_ids
  end.

Definition empty_stats : stats :=
  {| total_found := 0; applied := 0; failed := 0; skipped := 0; results := [] |}.

(** [x or y] on the optional arguments of [auto_apply]. *)
Definition or_list (x : option (list string)) (y : list string) : list string :=
  match x with
  | Some (k :: ks) => k :: ks
  | _ => y
  end.

Definition or_int (x : option Z) (y : Z) : Z :=
  match x with
  | Some z => if z =? 0 then y else z
  | None => y
  end.

Definition or_str (x : option string) (y : string) : string :=
  match x with
  | Some s => if String.eqb s "" then y else s
  | None => y
  end.

Definition auto_apply (keywords : option (list string)) (limit max_pages : option Z)
    (resume_id : option string) : M auto_apply_result :=
  cfg ← get_config;
  let keywords := or_list keywords (SuperjobConfig.search_keywords cfg) in
  let limit := or_int limit (SuperjobConfig.search_limit cfg) in
  let max_pages := or_int max_pages (SuperjobConfig.max_pages cfg) in
  let resume_id := or_str resume_id (SuperjobConfig.resume_id cfg) in
  match keywords with
  | [] => mret (AutoError "no search keywords")
  | _ :: _ =>
      if String.eqb resume_id "" then mret (AutoError "no resume_id")
      else
        '(s, _) ← apply_keywords keywords limit max_pages resume_id empty_stats ∅;
        mret (AutoStats s)
  end.

End Client.

(** ** Reading documents, for the statements below *)

(** [item[k]] read leniently: [None] when [item] is no object or has no
    such key. *)
Definition field (item : json) (k : string) : json :=
  match item with
  | JDict d => dict_get_or d k JNull
  | _ => JNull
  end.

(** The value under a path of keys, [None] when a step is absent or is not
    an object. *)
Fixpoint path (v : json) (keys : list string) : json :=
  match keys with
  | [] => v
  | k :: ks => path (field v k) ks
  end.

(** The value under a path of keys, when every step is there. *)
Fixpoint path_opt (v : json) (keys : list string) : option json :=
  match keys with
  | [] => Some v
  | k :: ks =>
      match v with
      | JDict d => match dict_get d k with
                   | Some v' => path_opt v' ks
                   | None => None
                   end
      | _ => None
      end
  end.

Definition is_object (item : json) : bool :=
  match item with
  | JDict _ => true
  | _ => false
  end.

(** A resource of the given type. *)
Definition has_type (ty : string) (item : json) : bool :=
  py_eq (field item "type") (JStr ty).

(** The elements of the response's "included" array. *)
Definition included_of (response : json) : list json :=
  match field response "included" with
  | JList items => items
  | _ => []
  end.

Definition vr_path : list string :=
  ["data"; "relationships"; "vacancyResponse"; "data"; "id"].

Definition chat_path : list string := ["relationships"; "chat"; "data"; "id"].

(** A "vacancyResponse" item of "included" whose id is [vr_id]. *)
Definition matches_vr (vr_id : json) (item : json) : bool :=
  has_type "vacancyResponse" item && py_eq (field item "id") vr_id.

(** Chat-id extraction as the specification words it: the id of the first
    chat resource of "included"; else the chat relationship id of the
    "vacancyResponse" item that the primary resource's relationship names;
    else no id. *)
Definition chat_id_as_specified (response : json) : json :=
  match List.find (has_type "chat") (included_of response) with
  | Some item => field item "id"
  | None =>
      match path_opt response vr_path with
      | Some vr_id =>
          match List.find (matches_vr vr_id) (included_of response) with
          | Some item => path item chat_path
          | None => JNull
          end
      | None => JNull
      end
  end.

(** Chat-id extraction as the code does it on a response whose "included"
    holds objects only: the relationship id must besides be truthy. *)
Definition chat_id_of (response : json) : json :=
  match List.find (has_type "chat") (included_of response) with
  | Some item => field item "id"
  | None =>
      let vr_id := path response vr_path in
      if py_truthy vr_id
      then match List.find (matches_vr vr_id) (included_of response) with
           | Some item => path item chat_path
           | None => JNull
           end
      else JNull
  end.

(** A response with a malformed entry before its chat resource. *)
Definition response_null_then_chat : json :=
  JDict [("included",
          JList [JNull; JDict [("type", JStr "chat"); ("id", JStr "C1")]])].

(** A response whose vacancyResponse relationship has the empty id. *)
Definition response_empty_vr_id : json :=
  JDict [
    ("data", JDict [("relationships", JDict [("vacancyResponse", ref_to (JStr "") "vacancyResponse")])]);
    ("included", JList [
       resource (JStr "") "vacancyResponse"
         [("relationships", JDict [("chat", ref_to (JStr "C1") "chat")])]])].

(** A response with no chat resource but a vacancyResponse that names one. *)
Definition response_nested_chat : json :=
  JDict [
    ("data", JDict [("relationships", JDict [("vacancyResponse", ref_to (JStr "R7") "vacancyResponse")])]);
    ("included", JList [
       resource (JStr "V1") "vacancy" [];
       resource (JStr "R7") "vacancyResponse"
         [("relationships", JDict [("chat", ref_to (JStr "C9") "chat")])]])].

(** ** Concrete environments and states, for the examples below *)

Definition ok_response (status : Z) (j : json) : response :=
  {| status_code := status; headers := []; body := BodyJson j |}.

(** A server that answers every request with status 200 and an empty JSON
    object; no cache file, no browser support, no cookie file. *)
Definition env_accepting : Env :=
  {| env_cache_file := fun _ => CacheAbsent;
     env_import_browser_cookie3 := fun _ => false;
     env_browser_cookies := fun _ _ => Raise (OSError "no cookie store");
     env_open_lines := fun _ _ => Raise (OSError "no such file");
     env_get := fun _ _ _ _ => HttpResp (ok_response 200 (JDict []));
     env_post := fun _ _ _ _ => HttpResp (ok_response 200 (JDict []));
     env_uuid4 := fun st => pretty (length (trace st));
     env_now := fun _ => "2026-01-01T00:00:00+00:00";
     env_repr := fun _ => "" |}.

Definition config_empty : SuperjobConfig.t :=
  {| SuperjobConfig.browser := "auto"; SuperjobConfig.resume_id := "";
     SuperjobConfig.search_keywords := []; SuperjobConfig.search_limit := 20;
     SuperjobConfig.max_pages := 1; SuperjobConfig.cover_letter := "" |}.

(** A fresh client: empty jar, nothing done yet. *)
Definition api_fresh : api :=
  {| config := config_empty; cookies := ∅; trace := [] |}.

Definition stale_key : cookie_key := (".superjob.ru", "/", "ssl_check").

(** A client whose jar already holds a cookie of the site. *)
Definition api_stale : api :=
  {| config := config_empty;
     cookies := {[ stale_key := JStr "success" ]};
     trace := [] |}.


(** The page [check_auth] requests. *)
Definition probe_url : string := "https://www.superjob.ru/user/resume/".

(** What [check_auth] makes of the answer to its request. *)
Definition probe_verdict (out : http_outcome) : bool :=
  match out with
  | HttpResp r => status_code r =? 200
  | HttpRaise _ => false
  end.

(** The request [check_auth] makes, with its answer. *)
Definition probe_event (out : http_outcome) : event := EvGet probe_url [] false out.




(** ** The shape of an authentication trace *)

(** The calls of one turn of the browser loop, with what the turn decides:
    the cookie store could not be read or lacked an identity cookie; its
    cookies were probed and refused; or they were probed, accepted and then
    saved to the cache. *)
Inductive attempt_trace : bool → list event → Prop :=
| attempt_skipped br cj :
    attempt_trace false [EvBrowserCookies br cj]
| attempt_refused br cj out :
    probe_verdict out = false →
    attempt_trace false [EvBrowserCookies br (Ok cj); probe_event out]
| attempt_accepted br cj out :
    probe_verdict out = true →
    attempt_trace true [EvBrowserCookies br (Ok cj); probe_event out;
                        EvCacheSave (JDict (cookie_dict cj))].

(** The calls of the whole browser loop: failed turns, then at most one
    accepted turn, which ends the loop. *)
Inductive adapters_trace : bool → list event → Prop :=
| adapters_exhausted :
    adapters_trace false []
| adapters_next evs evs' b :
    attempt_trace false evs → adapters_trace b evs' →
    adapters_trace b (evs ++ evs')
| adapters_done evs :
    attempt_trace true evs →
    adapters_trace true evs.

(** The calls of the cached-cookie path when it does not authenticate. *)
Inductive cache_miss_trace : list event → Prop :=
| cache_unusable c :
    cache_miss_trace [EvCacheLoad c]
| cache_refused c out :
    probe_verdict out = false →
    cache_miss_trace [EvCacheLoad c; probe_event out].

(** The calls of [auth_from_browser(browser, force_refresh=False)], with its
    outcome. *)
Inductive auth_trace : res bool → list event → Prop :=
| auth_cache_hit c out :
    probe_verdict out = true →
    auth_trace (Ok true) [EvCacheLoad c; probe_event out]
| auth_cache_raises c e :
    auth_trace (Raise e) [EvCacheLoad c]
| auth_no_module evs e :
    cache_miss_trace evs →
    auth_trace (Raise e) (evs ++ [EvImportBrowserCookie3 false])
| auth_bad_browser evs e :
    cache_miss_trace evs →
    auth_trace (Raise e) (evs ++ [EvImportBrowserCookie3 true])
| auth_adapters evs evs' b :
    cache_miss_trace evs → adapters_trace b evs' →
    auth_trace (Ok b) (evs ++ EvImportBrowserCookie3 true :: evs').

Definition is_cache_save (e : event) : bool :=
  match e with
  | EvCacheSave _ => true
  | _ => false
  end.

(** A cache file with valid-looking cookies, and a browser store. *)
Definition cached_cookies : json :=
  JDict [("uat", JStr "u0"); ("sat", JStr "s0"); ("sask", JStr "k0")].

Definition firefox_cookies : list (string * json) :=
  [("uat", JStr "u1"); ("sat", JStr "s1"); ("sask", JStr "k1"); ("geo", JStr "4")].

(** The server refuses the cached cookies ([uat] = "u0") by a redirect to the
    login page and accepts the browser's. *)
Definition env_stale_cache : Env :=
  {| env_cache_file := fun _ => CacheContent cached_cookies;
     env_import_browser_cookie3 := fun _ => true;
     env_browser_cookies := fun _ br =>
       if String.eqb br "firefox" then Ok firefox_cookies
       else Raise (OSError "no cookie store");
     env_open_lines := env_open_lines env_accepting;
     env_get := fun st _ _ _ =>
       if py_eq (default JNull (cookies st !! ((".superjob.ru", "/", "uat") : cookie_key)))
                (JStr "u0")
       then HttpResp {| status_code := 302;
                        headers := [("location", "/auth/login/")];
                        body := BodyEmpty |}
       else HttpResp (ok_response 200 (JDict []));
     env_post := env_post env_accepting;
     env_uuid4 := env_uuid4 env_accepting;
     env_now := env_now env_accepting;
     env_repr := env_repr env_accepting |}.

(** ** Applications and messages in a trace *)

Definition application_url : string := API_URL +:+ "/cvApplication/".
Definition message_url : string := API_URL +:+ "/chatMessage/".

(** The payloads posted to a given address, in order. *)
Definition posted_to (url : string) (evs : list event) : list json :=
  omap (fun e => match e with
                 | EvPost u _ payload _ => if String.eqb u url then Some payload else None
                 | _ => None
                 end) evs.

(** The text [apply_to_vacancy] sends for a [cover_letter] argument. *)
Definition resolved_letter (cfg : SuperjobConfig.t) (cover_letter : option string) : string :=
  if bool_decide (cover_letter = Some "default")
  then SuperjobConfig.cover_letter cfg
  else default "" cover_letter.

(** The answer to an application: created, with a chat resource "C1". *)
Definition created_with_chat : response :=
  ok_response 201
    (JDict [("data", resource (JStr "A1") "cvApplication" []);
            ("included", JList [resource (JStr "C1") "chat" []])]).

(** A server that opens chat "C1" for every application and accepts every
    message. *)
Definition env_chat : Env :=
  {| env_cache_file := env_cache_file env_accepting;
     env_import_browser_cookie3 := env_import_browser_cookie3 env_accepting;
     env_browser_cookies := env_browser_cookies env_accepting;
     env_open_lines := env_open_lines env_accepting;
     env_get := env_get env_accepting;
     env_post := fun _ url _ _ =>
       if String.eqb url application_url then HttpResp created_with_chat
       else HttpResp (ok_response 201 (JDict []));
     env_uuid4 := env_uuid4 env_accepting;
     env_now := env_now env_accepting;
     env_repr := env_repr env_accepting |}.

(** A client configured with the given default cover letter. *)
Definition api_with_letter (letter : string) : api :=
  {| config := {| SuperjobConfig.browser := "auto";
                  SuperjobConfig.resume_id := "R1";
                  SuperjobConfig.search_keywords := ["python"; "devops"];
                  SuperjobConfig.search_limit := 2;
                  SuperjobConfig.max_pages := 1;
                  SuperjobConfig.cover_letter := letter |};
     cookies := ∅;
     trace := [] |}.

(** ** Searches and applications in a trace *)

(** What [search_vacancies] returns for an answer to its request. *)
Definition page_result (env : Env) (out : http_outcome) : search_result :=
  match out with
  | HttpRaise _ => no_results
  | HttpResp r =>
      match search_result_of env r with
      | Ok sr => sr
      | Raise _ => no_results
      end
  end.

(** The request for page [page] of a keyword, with its answer. *)
Definition page_event (kw : string) (limit page : Z) (out : http_outcome) : event :=
  EvGet search_url (search_params kw limit (page * limit)) true out.

(** The vacancies of all search answers of a trace, in order. *)
Definition fetched (env : Env) (evs : list event) : list vacancy :=
  evs ≫= fun e =>
    match e with
    | EvGet url _ _ out => if String.eqb url search_url
                           then vacancies (page_result env out) else []
    | _ => []
    end.

(** The vacancy an application payload applies to. *)
Definition payload_vacancy_id (payload : json) : json :=
  match field payload "included" with
  | JList (_ :: vacancy :: _) => field vacancy "id"
  | _ => JNull
  end.

(** The vacancy ids applied to in a trace, in order. *)
Definition applications (evs : list event) : list json :=
  payload_vacancy_id <$> posted_to application_url evs.

(** The ids of [ids] as elements of a set, when all are hashable. *)
Definition hashed (ids : list json) (keys : list hkey) : Prop :=
  Forall2 (fun v h => hash_key v = Ok h) ids keys.

(** A page answer that ends the loop over pages: no vacancy, or
    [offset + limit >= total] (or a total that does not compare). *)
Definition page_halts (env : Env) (limit page : Z) (out : http_outcome) : Prop :=
  vacancies (page_result env out) = [] ∨
  py_ge (page * limit + limit) (total (page_result env out)) ≠ Ok false.

(** A page answer after which the loop goes on. *)
Definition page_continues (env : Env) (limit page : Z) (out : http_outcome) : Prop :=
  vacancies (page_result env out) ≠ [] ∧
  py_ge (page * limit + limit) (total (page_result env out)) = Ok false.

(** The requests for pages [first], [first + 1], ... with their answers. *)
Fixpoint page_events (kw : string) (limit first : Z) (outs : list http_outcome)
    : list event :=
  match outs with
  | [] => []
  | out :: outs' => page_event kw limit first out :: page_events kw limit (first + 1) outs'
  end.

(** All answers but the last let the loop go on. *)
Fixpoint pages_continue (env : Env) (limit first : Z) (outs : list http_outcome) : Prop :=
  match outs with
  | [] | [_] => True
  | out :: outs' => page_continues env limit first out
                    ∧ pages_continue env limit (first + 1) outs'
  end.

(** The last answer ends the loop. *)
Fixpoint last_page_halts (env : Env) (limit first : Z) (outs : list http_outcome) : Prop :=
  match outs with
  | [] => False
  | [out] => page_halts env limit first out
  | _ :: outs' => last_page_halts env limit (first + 1) outs'
  end.

(** [n] consecutive integers from [first]. *)
Fixpoint zrange (first : Z) (n : nat) : list Z :=
  match n with
  | O => []
  | S n' => first :: zrange (first + 1) n'
  end.

(** What holds between two keywords of a run: [evs] are the calls made so
    far, [s] the statistics, [ids] the set [applied_ids]. *)
Definition run_inv (env : Env) (evs : list event) (s : stats) (ids : gset hkey) : Prop :=
  ∃ ks akeys : list hkey,
    hashed (v_id <$> fetched env evs) ks ∧
    hashed (applications evs) akeys ∧
    NoDup akeys ∧
    (∀ h, h ∈ akeys ↔ h ∈ ks) ∧
    (∀ h, h ∈ ids ↔ h ∈ akeys) ∧
    total_found s = Z.of_nat (length ks) ∧
    skipped s = Z.of_nat (length ks) - Z.of_nat (length akeys) ∧
    applied s + failed s = Z.of_nat (length akeys) ∧
    length (results s) = length akeys.

(** ** The two-keyword scenario *)

Definition vacancy_item (id main_id : string) : json :=
  resource (JStr id) "vacancy"
    [("relationships", JDict [("mainInfo", ref_to (JStr main_id) "vacancyMainInfo")])].

Definition main_info (main_id profession : string) : json :=
  resource (JStr main_id) "vacancyMainInfo"
    [("attributes", JDict [("profession", JStr profession); ("minSalary", JInt 100)])].

(** The answer to the search for "python": vacancies V1 and V2, total 2. *)
Definition python_page : json :=
  JDict [("meta", JDict [("total", JInt 2)]);
         ("data", JList [vacancy_item "V1" "M1"; vacancy_item "V2" "M2"]);
         ("included", JList [main_info "M1" "Python developer";
                             main_info "M2" "Backend engineer"])].

(** The answer to the search for "devops": vacancies V2 and V3, total 2. *)
Definition devops_page : json :=
  JDict [("meta", JDict [("total", JInt 2)]);
         ("data", JList [vacancy_item "V2" "M2"; vacancy_item "V3" "M3"]);
         ("included", JList [main_info "M2" "Backend engineer";
                             main_info "M3" "SRE"])].

Definition env_scenario : Env :=
  {| env_cache_file := env_cache_file env_accepting;
     env_import_browser_cookie3 := env_import_browser_cookie3 env_accepting;
     env_browser_cookies := env_browser_cookies env_accepting;
     env_open_lines := env_open_lines env_accepting;
     env_get := fun _ _ params _ =>
       if py_eq (dict_get_or params "filters[keywords]" JNull) (JStr "python")
       then HttpResp (ok_response 200 python_page)
       else HttpResp (ok_response 200 devops_page);
     env_post := env_post env_chat;
     env_uuid4 := fun _ => "00000000-0000-4000-8000-000000000000";
     env_now := env_now env_accepting;
     env_repr := env_repr env_accepting |}.

Definition scenario_vacancy (id title : string) : vacancy :=
  {| v_id := JStr id; v_title := JStr title; v_company := JStr "";
     v_salary_min := JInt 100; v_salary_max := JInt 0;
     v_url := "https://www.superjob.ru/vakansii/" +:+ id +:+ ".html" |}.

(** The run of the scenario from a fresh client. *)
Definition scenario_run : res auto_apply_result * api :=
  auto_apply env_scenario (Some ["python"; "devops"]) (Some 2) (Some 1) (Some "R1")
    api_fresh.

Definition scenario_stats : stats :=
  Eval vm_compute in
    match scenario_run.1 with
    | Ok (AutoStats s) => s
    | _ => empty_stats
    end.

(** Whether [send_message] reports success for an answer to its request. *)
Definition send_verdict (out : http_outcome) : bool :=
  match out with
  | HttpRaise _ => false
  | HttpResp r =>
      match body r with
      | BodyInvalid _ => false
      | _ => status_ok (status_code r)
      end
  end.

(** ** Reading an authentication trace *)

Definition is_cache_load (e : event) : bool :=
  match e with
  | EvCacheLoad _ => true
  | _ => false
  end.

(** The browsers whose cookie stores were read, in order. *)
Definition browser_reads (evs : list event) : list string :=
  omap (fun e => match e with
                 | EvBrowserCookies br _ => Some br
                 | _ => None
                 end) evs.

(** [browsers_to_try] for a valid [browser] argument. *)
Definition browsers_for (browser : string) : list string :=
  if String.eqb browser "auto" then ["firefox"; "chrome"; "edge"; "safari"]
  else [browser].

(** A probe that was answered with status 200. *)
Definition is_accepted_probe (e : event) : bool :=
  match e with
  | EvGet url _ _ out => String.eqb url probe_url && probe_verdict out
  | _ => false
  end.

(** The value of the last cookie named [name] that a cookie store yields. *)
Definition last_cookie (cj : list (string * json)) (name : string) : option json :=
  dict_get (reverse cj) name.

(** A cache file holding a number, and an environment that serves it. *)
Definition env_number_cache : Env :=
  {| env_cache_file := fun _ => CacheContent (JInt 42);
     env_import_browser_cookie3 := fun _ => true;
     env_browser_cookies := env_browser_cookies env_stale_cache;
     env_open_lines := env_open_lines env_accepting;
     env_get := env_get env_accepting;
     env_post := env_post env_accepting;
     env_uuid4 := env_uuid4 env_accepting;
     env_now := env_now env_accepting;
     env_repr := env_repr env_accepting |}.

(** A cookie file with the three identity cookies and a region. *)
Definition lines_complete : list string :=
  ["# exported"; "uat=u1"; "sat = s1"; ""; "sask=k=1"; "geo=4"].


(** One turn of the loop of [auth_from_file] over the lines. *)
Definition cookie_line_step (d : list (string * json)) (line : string)
    : list (string * json) :=
  let line := py_strip line in
  if negb (String.eqb line "") && substring_in "=" line
  then match split_eq line with
       | Some (name, value) => dict_set d (py_strip name) (JStr (py_strip value))
       | None => d
       end
  else d.

(** A page whose second entry of "data" is not an object. *)
Definition broken_page : json :=
  JDict [("meta", JDict [("total", JInt 120)]);
         ("data", JList [vacancy_item "V1" "M1"; JStr "V2"])].

(** A vacancy none of whose side resources was found. *)
Definition unjoined (v : vacancy) : Prop :=
  v_title v = JStr "" ∧ v_company v = JStr "" ∧
  v_salary_min v = JInt 0 ∧ v_salary_max v = JInt 0.

(** A page without side resources. *)
Definition bare_page : json :=
  JDict [("meta", JDict [("total", JInt 1)]);
         ("data", JList [vacancy_item "V7" "M7"])].

(** ** Reading the results of a run *)

Definition successes (es : list entry) : nat :=
  length (filter (fun e => e_success e = true) es).

Definition failures (es : list entry) : nat :=
  length (filter (fun e => e_success e = false) es).

(** An entry carries an error text exactly when the application failed. *)
Definition entry_ok (e : entry) : Prop :=
  if e_success e then e_error e = None else is_Some (e_error e).

(** An application with the default letter "Hello" configured. *)
Definition letter_run : res apply_result * api :=
  apply_to_vacancy env_chat (JStr "V1") "R1" (Some "default") false
    (api_with_letter "Hello").

Definition letter_result : apply_result :=
  Eval vm_compute in
    match letter_run.1 with
    | Ok r => r
    | Raise _ => {| ar_success := false; ar_status_code := None; ar_response := None;
                    ar_chat_id := JNull; ar_chat_url := None;
                    ar_cover_letter_sent := None; ar_error := None |}
    end.

(** ** Listing resumes and chats *)

(** An element of the list [get_my_resumes] returns. *)
Record resume : Type := {
  r_id : json;
  r_type : json;
  r_attributes : json
}.

(** An element of the list [get_chats] returns. *)
Record chat : Type := {
  c_id : json;
  c_attributes : json
}.

Definition resume_url : string := API_URL +:+ "/resume/".
Definition chat_url : string := API_URL +:+ "/chat/".

Definition resume_params : list (string * json) :=
  [ ("page[limit]", JInt 15); ("page[offset]", JInt 0); ("filters[mine]", JInt 1);
    ("include",
     JStr "resumeBirthDate,totalExperience,town,photo,detail,workType,publishedStatus,person") ].

Definition chat_params (limit : Z) : list (string * json) :=
  [ ("page[limit]", JInt limit); ("page[offset]", JInt 0);
    ("include", JStr "company,vacancy.mainInfo,lastMessage") ].

(** The loop of [get_my_resumes] over [data.get("data", [])]. *)
Fixpoint build_resumes (items : list json) : res (list resume) :=
  match items with
  | [] => Ok []
  | item :: rest =>
      id ← py_get item "id" JNull;
      ty ← py_get item "type" JNull;
      attributes ← py_get item "attributes" (JDict []);
      resumes ← build_resumes rest;
      Ok ({| r_id := id; r_type := ty; r_attributes := attributes |} :: resumes)
  end.

(** The loop of [get_chats] over [data.get("data", [])]. *)
Fixpoint build_chats (items : list json) : res (list chat) :=
  match items with
  | [] => Ok []
  | item :: rest =>
      id ← py_get item "id" JNull;
      attributes ← py_get item "attributes" (JDict []);
      chats ← build_chats rest;
      Ok ({| c_id := id; c_attributes := attributes |} :: chats)
  end.

(** [data = resp.json(); for item in data.get("data", []): ...]. *)
Definition data_items (resp : response) : res (list json) :=
  data ← resp_json resp;
  items ← py_get data "data" (JList []);
  py_iter items.

Section Listing.
Variable env : Env.

Definition get_my_resumes : M (list resume) :=
  m_try
    (resp ← session_get env resume_url resume_params true;
     if status_code resp =? 200
     then lift (items ← data_items resp; build_resumes items)
     else mret [])
    (fun _ => mret []).

Definition get_chats (limit : Z) : M (list chat) :=
  m_try
    (resp ← session_get env chat_url (chat_params limit) true;
     if status_code resp =? 200
     then lift (items ← data_items resp; build_chats items)
     else mret [])
    (fun _ => mret []).

End Listing.

(** The record made of one entry of "data". *)
Definition resume_of (item : json) : resume :=
  {| r_id := field item "id"; r_type := field item "type";
     r_attributes := match item with
                     | JDict d => dict_get_or d "attributes" (JDict [])
                     | _ => JDict []
                     end |}.

Definition chat_of (item : json) : chat :=
  {| c_id := field item "id";
     c_attributes := match item with
                     | JDict d => dict_get_or d "attributes" (JDict [])
                     | _ => JDict []
                     end |}.

(** The entries of "data" in a response that lists well: status 200, a body
    that is an object, and under "data" (if present) a list of objects. *)
Definition listed (out : http_outcome) (items : list json) : Prop :=
  ∃ r d,
    out = HttpResp r ∧ status_code r = 200 ∧ body r = BodyJson (JDict d) ∧
    py_iter (dict_get_or d "data" (JList [])) = Ok items ∧
    Forall (fun item => is_object item = true) items.

(** A server that lists two resumes and two chats. *)
Definition listing_page : json :=
  JDict [("data", JList [resource (JStr "R1") "resume" [("attributes", JDict [("title", JStr "Dev")])];
                         resource (JStr "R2") "resume" []])].

Definition env_listing : Env :=
  {| env_cache_file := env_cache_file env_accepting;
     env_import_browser_cookie3 := env_import_browser_cookie3 env_accepting;
     env_browser_cookies := env_browser_cookies env_accepting;
     env_open_lines := env_open_lines env_accepting;
     env_get := fun _ _ _ _ => HttpResp (ok_response 200 listing_page);
     env_post := env_post env_accepting;
     env_uuid4 := env_uuid4 env_accepting;
     env_now := env_now env_accepting;
     env_repr := env_repr env_accepting |}.

(** ** Configuration *)

Definition backslash : Ascii.ascii := Ascii.ascii_of_N 92.
Definition newline : Ascii.ascii := Ascii.ascii_of_N 10.

(** [value.replace("\\n", "\n")]: every backslash followed by the letter n
    becomes a line feed, scanning from the left. *)
Fixpoint unescape_newlines (s : string) : string :=
  match s with
  | EmptyString => EmptyString
  | String c rest =>
      match rest with
      | String c' rest' =>
          if Ascii.eqb c backslash && Ascii.eqb c' "n"%char
          then String newline (unescape_newlines rest')
          else String c (unescape_newlines rest)
      | EmptyString => String c EmptyString
      end
  end.

(** [line.startswith("#")]. *)
Definition is_comment (line : string) : bool := String.prefix "#" line.

(** One turn of the loop of [load_env] over the lines of the file. *)
Definition env_line_step (env : list (string * string)) (line : string)
    : list (string * string) :=
  let line := py_strip line in
  if String.eqb line "" || is_comment line || negb (substring_in "=" line)
  then env
  else match split_eq line with
       | Some (key, value) =>
           dict_set env (py_strip key) (py_strip (unescape_newlines value))
       | None => env
       end.

(** [load_env], given what the file system has under [filepath]: nothing, or
    a file whose reading yields lines or raises. *)
Definition load_env (file : option (res (list string))) : res (list (string * string)) :=
  match file with
  | None => Ok []
  | Some lines => lines ← lines; Ok (foldl env_line_step [] lines)
  end.

(** [s.split(",")]. *)
Fixpoint split_commas (s : string) : list string :=
  match s with
  | EmptyString => [EmptyString]
  | String c rest =>
      if Ascii.eqb c ","%char then EmptyString :: split_commas rest
      else match split_commas rest with
           | part :: parts => String c part :: parts
           | [] => [String c EmptyString]
           end
  end.

(** [[k.strip() for k in s.split(",") if k.strip()]]. *)
Definition keywords_of (s : string) : list string :=
  omap (fun k => let k := py_strip k in
                 if String.eqb k "" then None else Some k) (split_commas s).

Definition digit_of (c : Ascii.ascii) : option Z :=
  let n := Ascii.N_of_ascii c in
  if ((48 <=? n) && (n <=? 57))%N then Some (Z.of_N n - 48) else None.

(** The digits of an integer literal, with single underscores allowed
    between digits; [after_digit] tells whether the previous character was a
    digit. *)
Fixpoint int_digits (s : string) (acc : Z) (after_digit : bool) : option Z :=
  match s with
  | EmptyString => if after_digit then Some acc else None
  | String c rest =>
      match digit_of c with
      | Some d => int_digits rest (10 * acc + d) true
      | None => if Ascii.eqb c "_"%char && after_digit
                then int_digits rest acc false
                else None
      end
  end.

(** [int(s)] for a string of ASCII characters. *)
Definition py_int (s : string) : res Z :=
  let body :=
    match py_strip s with
    | String c rest =>
        if Ascii.eqb c "-"%char then Z.opp <$> int_digits rest 0 false
        else if Ascii.eqb c "+"%char then int_digits rest 0 false
        else int_digits (String c rest) 0 false
    | EmptyString => None
    end in
  match body with
  | Some z => Ok z
  | None => Raise (ValueError "invalid literal for int() with base 10")
  end.

(** [SuperjobConfig.__init__], from the dict [load_env] returned. *)
Definition config_of_env (env : list (string * string)) : res SuperjobConfig.t :=
  let get k dflt := default dflt (dict_get env k) in
  search_limit ← py_int (get "SEARCH_LIMIT" "20");
  max_pages ← py_int (get "MAX_PAGES" "1");
  Ok {| SuperjobConfig.browser := get "BROWSER" "auto";
        SuperjobConfig.resume_id := get "RESUME_ID" "";
        SuperjobConfig.search_keywords := keywords_of (get "SEARCH_KEYWORDS" "");
        SuperjobConfig.search_limit := search_limit;
        SuperjobConfig.max_pages := max_pages;
        SuperjobConfig.cover_letter := get "COVER_LETTER" "" |}.

(** Whether a character occurs in a string. *)
Fixpoint has_char (c : Ascii.ascii) (s : string) : bool :=
  match s with
  | EmptyString => false
  | String c' rest => Ascii.eqb c' c || has_char c rest
  end.

(** A configuration file. *)
Definition env_lines : list string :=
  [ "# superjob"; "BROWSER=firefox"; "RESUME_ID = 42 "; "";
    "SEARCH_KEYWORDS= python, ,devops,"; "SEARCH_LIMIT=1_0"; "COVER_LETTER=Hi\nthere" ].

(** A page that reports no number as its total. *)
Definition null_total_page : json :=
  JDict [("meta", JDict [("total", JNull)]);
         ("data", JList [vacancy_item "V1" "M1"])].

Definition env_null_total : Env :=
  {| env_cache_file := env_cache_file env_accepting;
     env_import_browser_cookie3 := env_import_browser_cookie3 env_accepting;
     env_browser_cookies := env_browser_cookies env_accepting;
     env_open_lines := env_open_lines env_accepting;
     env_get := fun _ _ _ _ => HttpResp (ok_response 200 null_total_page);
     env_post := env_post env_chat;
     env_uuid4 := env_uuid4 env_accepting;
     env_now := env_now env_accepting;
     env_repr := env_repr env_accepting |}.

(** * Properties *)

(** ** Chat-id extraction *)

Lemma path_null ks : path JNull ks = JNull.
Proof. induction ks as [|k ks IH]; [reflexivity | exact IH]. Qed.

Lemma path_empty_dict ks : ks ≠ [] → path (JDict []) ks = JNull.
Proof. destruct ks as [|k ks]; [congruence | intros _; apply path_null]. Qed.

(** One [.get(k, {})] step of a relationship path. *)
Lemma py_get_step v k ks :
  ks ≠ [] →
  match py_get v k (JDict []) with
  | Ok x => path x ks = path v (k :: ks)
  | Raise _ => path v (k :: ks) = JNull
  end.
Proof.
  intros Hks. destruct v; simpl; try apply path_null.
  unfold dict_get_or. destruct (dict_get d k); simpl; [reflexivity|].
  rewrite path_null. by apply path_empty_dict.
Qed.

(** The last [.get("id")] step. *)
Lemma py_get_last v k :
  match py_get v k JNull with
  | Ok x => x = path v [k]
  | Raise _ => path v [k] = JNull
  end.
Proof. destruct v; simpl; reflexivity. Qed.

Lemma find_chat_objects items :
  Forall (fun item => is_object item = true) items →
  find_chat items =
    Ok ((fun item => field item "id") <$> List.find (has_type "chat") items).
Proof.
  induction 1 as [|item items Hobj _ IH]; [reflexivity|].
  destruct item; try discriminate Hobj. simpl.
  unfold has_type; simpl. unfold dict_get_or.
  destruct (py_eq _ _); [reflexivity | exact IH].
Qed.

(** The read of an item's chat relationship id inside [_extract_chat_id]. *)
Lemma chat_relationship_id item :
  match
    (rels ← py_get item "relationships" (JDict []);
     chat ← py_get rels "chat" (JDict []);
     chat_data ← py_get chat "data" (JDict []);
     id ← py_get chat_data "id" JNull;
     Ok (Some id))
  with
  | Ok (Some v) => v = path item chat_path
  | Ok None => False
  | Raise _ => path item chat_path = JNull
  end.
Proof.
  unfold chat_path.
  pose proof (py_get_step item "relationships" ["chat"; "data"; "id"]) as H1.
  destruct (py_get item "relationships" _) as [rels|]; cbn [mbind res_bind]; [|by apply H1].
  rewrite <- H1 by done.
  pose proof (py_get_step rels "chat" ["data"; "id"]) as H2.
  destruct (py_get rels "chat" _) as [chat|]; cbn [mbind res_bind]; [|by apply H2].
  rewrite <- H2 by done.
  pose proof (py_get_step chat "data" ["id"]) as H3.
  destruct (py_get chat "data" _) as [chat_data|]; cbn [mbind res_bind]; [|by apply H3].
  rewrite <- H3 by done.
  pose proof (py_get_last chat_data "id") as H4.
  destruct (py_get chat_data "id" _); cbn [mbind res_bind]; exact H4.
Qed.

Lemma py_get_dict d k dflt : py_get (JDict d) k dflt = Ok (dict_get_or d k dflt).
Proof. reflexivity. Qed.

Lemma find_vacancy_response_objects vr_id items :
  Forall (fun item => is_object item = true) items →
  try_except (hit ← find_vacancy_response vr_id items; Ok (default JNull hit))
             (fun _ => Ok JNull)
  = Ok (match List.find (matches_vr vr_id) items with
        | Some item => path item chat_path
        | None => JNull
        end).
Proof.
  induction 1 as [|item items Hobj _ IH]; [reflexivity|].
  destruct item as [| | | | |d]; try discriminate Hobj.
  cbn [find_vacancy_response List.find].
  unfold matches_vr at 1, has_type.
  rewrite (py_get_dict d "type"), (py_get_dict d "id"). cbn [field mbind res_bind].
  destruct (py_eq (dict_get_or d "type" JNull) (JStr "vacancyResponse"));
    cbn [mbind res_bind andb]; [|exact IH].
  destruct (py_eq (dict_get_or d "id" JNull) vr_id); [|exact IH].
  pose proof (chat_relationship_id (JDict d)) as Hc.
  destruct (_ ≫= _) as [[v|]|e] in Hc |- *; cbn [mbind res_bind try_except default];
    [by subst | done | by rewrite Hc].
Qed.

(** The tail of [_extract_chat_id] after the first loop found no chat. *)
Lemma extract_fallback response included items :
  py_iter included = Ok items →
  Forall (fun item => is_object item = true) items →
  try_except
    (data ← py_get response "data" (JDict []);
     relationships ← py_get data "relationships" (JDict []);
     vr ← py_get relationships "vacancyResponse" (JDict []);
     vacancy_response ← py_get vr "data" (JDict []);
     vr_id ← py_get vacancy_response "id" JNull;
     if py_truthy vr_id
     then items' ← py_iter included;
          hit' ← find_vacancy_response vr_id items';
          Ok (default JNull hit')
     else Ok JNull)
    (fun _ => Ok JNull)
  = Ok (let vr_id := path response vr_path in
        if py_truthy vr_id
        then match List.find (matches_vr vr_id) items with
             | Some item => path item chat_path
             | None => JNull
             end
        else JNull).
Proof.
  intros Hiter Hobj. unfold vr_path. cbv zeta.
  pose proof (py_get_step response "data"
                ["relationships"; "vacancyResponse"; "data"; "id"]) as H1.
  destruct (py_get response "data" _) as [data|]; cbn [mbind res_bind try_except];
    [|by rewrite H1].
  rewrite <- H1 by done.
  pose proof (py_get_step data "relationships" ["vacancyResponse"; "data"; "id"]) as H2.
  destruct (py_get data "relationships" _) as [rels|]; cbn [mbind res_bind try_except];
    [|by rewrite H2].
  rewrite <- H2 by done.
  pose proof (py_get_step rels "vacancyResponse" ["data"; "id"]) as H3.
  destruct (py_get rels "vacancyResponse" _) as [vr|]; cbn [mbind res_bind try_except];
    [|by rewrite H3].
  rewrite <- H3 by done.
  pose proof (py_get_step vr "data" ["id"]) as H4.
  destruct (py_get vr "data" _) as [vrd|]; cbn [mbind res_bind try_except];
    [|by rewrite H4].
  rewrite <- H4 by done.
  pose proof (py_get_last vrd "id") as H5.
  destruct (py_get vrd "id" _) as [vr_id|]; cbn [mbind res_bind try_except];
    [|by rewrite H5].
  rewrite <- H5.
  destruct (py_truthy vr_id); [|reflexivity].
  rewrite Hiter. cbn [mbind res_bind].
  by apply find_vacancy_response_objects.
Qed.

(** Iterating something that is not a list of objects either yields nothing
    or makes the first loop raise. *)
Lemma find_chat_not_list included items :
  (∀ l, included ≠ JList l) →
  py_iter included = Ok items →
  items = [] ∨ ∃ e, find_chat items = Raise e.
Proof.
  intros Hnl Hiter. destruct included as [| | |s|l|d]; simpl in Hiter; try discriminate.
  - destruct s; simplify_eq/=; eauto.
  - by destruct (Hnl l).
  - destruct d as [|[k v] d]; simplify_eq/=; eauto.
Qed.

(** [_extract_chat_id] from the point where "included" has been read. *)
Lemma extract_with_items response included items :
  py_iter included = Ok items →
  Forall (fun item => is_object item = true) items →
  try_except
    (items ← py_iter included;
     hit ← find_chat items;
     match hit with
     | Some id => Ok id
     | None =>
         data ← py_get response "data" (JDict []);
         relationships ← py_get data "relationships" (JDict []);
         vr ← py_get relationships "vacancyResponse" (JDict []);
         vacancy_response ← py_get vr "data" (JDict []);
         vr_id ← py_get vacancy_response "id" JNull;
         if py_truthy vr_id
         then items' ← py_iter included;
              hit' ← find_vacancy_response vr_id items';
              Ok (default JNull hit')
         else Ok JNull
     end)
    (fun _ => Ok JNull)
  = Ok (match List.find (has_type "chat") items with
        | Some item => field item "id"
        | None =>
            let vr_id := path response vr_path in
            if py_truthy vr_id
            then match List.find (matches_vr vr_id) items with
                 | Some item => path item chat_path
                 | None => JNull
                 end
            else JNull
        end).
Proof.
  intros Hiter Hobj.
  pose proof (extract_fallback response included items Hiter Hobj) as Hf.
  rewrite Hiter in Hf |- *. cbn [mbind res_bind] in Hf |- *.
  rewrite (find_chat_objects items Hobj).
  destruct (List.find (has_type "chat") items) as [item|];
    cbn [fmap option_fmap option_map mbind res_bind].
  - reflexivity.
  - exact Hf.
Qed.

Lemma extract_chat_id_total response : ∃ v, _extract_chat_id response = Ok v.
Proof.
  unfold _extract_chat_id. destruct (extract_chat_id_body response); simpl; eauto.
Qed.

(** C1 (amended).  Chat-id extraction never raises.  On every response whose
    "included" entries are all objects it returns the id of the first
    resource of type "chat"; failing that, when the primary resource's
    "vacancyResponse" relationship id is truthy, the "chat" relationship id of
    the first "vacancyResponse" item of "included" with that id; and no id
    otherwise, also when a relationship path is absent or malformed. *)
Theorem extract_chat_id_objects (response : json) :
  (∃ v, _extract_chat_id response = Ok v) ∧
  (Forall (fun item => is_object item = true) (included_of response) →
   _extract_chat_id response = Ok (chat_id_of response)).
Proof.
  split; [apply extract_chat_id_total|].
  intros Hobj. unfold _extract_chat_id, extract_chat_id_body, chat_id_of.
  destruct response as [| | | | |d];
    try (cbn; by rewrite ?path_null).
  change (py_get (JDict d) "included" (JList []))
    with (Ok (dict_get_or d "included" (JList []))).
  cbn [mbind res_bind].
  unfold included_of, dict_get_or in *. cbn [field] in *. unfold dict_get_or in *.
  destruct (dict_get d "included") as [included|] eqn:Hinc;
    cbn [default from_option id] in *.
  2: { by apply extract_with_items. }
  assert ((∃ l, included = JList l) ∨ ∀ l, included ≠ JList l) as [[l ->]|Hnl]
    by (destruct included; eauto).
  { by apply extract_with_items. }
  assert (match included with JList items => items | _ => [] end = []) as ->.
  { destruct included as [| | | |l|]; try reflexivity. by destruct (Hnl l). }
  destruct (py_iter included) as [items|e] eqn:Hiter.
  2: { cbn. by destruct (py_truthy _). }
  destruct (find_chat_not_list included items) as [->|[e He]]; [done|done| |].
  - pose proof (extract_with_items (JDict d) included [] Hiter (List.Forall_nil _)) as H.
    rewrite Hiter in H. exact H.
  - cbn [mbind res_bind]. rewrite He. cbn.
    by destruct (py_truthy _).
Qed.

Lemma extract_chat_id_objects_witness :
  _extract_chat_id response_nested_chat = Ok (JStr "C9").
Proof.
  change (JStr "C9") with (chat_id_of response_nested_chat).
  apply (proj2 (extract_chat_id_objects response_nested_chat)).
  repeat constructor.
Defined.

(** C1 as stated fails: a chat resource that follows a malformed entry of
    "included" is not returned, because the entry makes the scan raise and the
    handler answers with no id. *)
Lemma extract_chat_id_counterexample :
  chat_id_as_specified response_null_then_chat = JStr "C1" ∧
  _extract_chat_id response_null_then_chat = Ok JNull.
Proof. split; reflexivity. Qed.

(** Nor is a matching vacancyResponse item used when the relationship id is
    the empty string: the guard [if vr_id:] skips the second scan. *)
Example extract_chat_id_empty_relationship_id :
  chat_id_as_specified response_empty_vr_id = JStr "C1" ∧
  _extract_chat_id response_empty_vr_id = Ok JNull.
Proof. split; reflexivity. Qed.

(** ** The authentication probe *)

Lemma check_auth_run (env : Env) (st : api) :
  let out := env_get env st probe_url [] false in
  check_auth env st = (Ok (probe_verdict out), add_event (EvGet probe_url [] false out) st).
Proof.
  intros out. unfold check_auth, m_try, session_get, mbind, M_bind, mret, M_ret.
  change (BASE_URL +:+ "/user/resume/") with probe_url.
  fold out. destruct out as [e|r]; [reflexivity|]. cbn [probe_verdict].
  destruct (status_code r =? 302) eqn:E; cbn [andb]; [|reflexivity].
  apply Z.eqb_eq in E. rewrite E. by destruct (substring_in _ _).
Qed.

(** C6.  [check_auth] issues one GET of the "my resume" page with
    [allow_redirects=False] and never raises.  It answers [True] exactly when
    a response came back with status 200; a redirect to a "login" location,
    any other status and any transport failure all answer [False]. *)
Theorem check_auth_probe (env : Env) (st : api) :
  let out := env_get env st "https://www.superjob.ru/user/resume/" [] false in
  ∃ b : bool,
    check_auth env st
      = (Ok b, add_event (EvGet "https://www.superjob.ru/user/resume/" [] false out) st)
    ∧ (b = true ↔ ∃ r, out = HttpResp r ∧ status_code r = 200)
    ∧ (∀ r, out = HttpResp r → status_code r = 302 →
            substring_in "login" (default "" (header_get (headers r) "Location")) = true →
            b = false)
    ∧ (∀ r, out = HttpResp r → status_code r ≠ 200 → b = false)
    ∧ (∀ e, out = HttpRaise e → b = false).
Proof.
  intros out. exists (probe_verdict out). split; [apply check_auth_run|].
  destruct out as [e|r]; cbn [probe_verdict].
  - repeat split; try done. by intros [r [? _]].
  - repeat split.
    + intros H%Z.eqb_eq. eauto.
    + intros [r' [? ?]]. simplify_eq. by apply Z.eqb_eq.
    + intros r' ? ? _. simplify_eq. apply Z.eqb_neq. lia.
    + intros r' ? ?. simplify_eq. by apply Z.eqb_neq.
    + done.
Qed.

(** ** The cookie jar *)



Lemma m_for_cookie_set l st :
  m_for l (fun '(name, value) => cookie_set name value) st
  = (Ok (), set_cookies (foldl (fun jar '(name, value) => jar_set name value jar)
                               (cookies st) l) st).
Proof.
  revert st. induction l as [|[name value] l IH]; intros st.
  - by destruct st.
  - cbn [m_for foldl]. unfold mbind, M_bind at 1. unfold cookie_set at 1.
    rewrite IH. by destruct st.
Qed.





Lemma auth_with_cookies_run env uat sat sask geo geo_confirmed geo_set login_auth_type st :
  let jar := foldl (fun jar '(name, value) => jar_set name value jar) (cookies st)
               (cookie_values uat sat sask geo geo_confirmed geo_set login_auth_type) in
  auth_with_cookies env uat sat sask geo geo_confirmed geo_set login_auth_type st
  = check_auth env (set_cookies jar st).
Proof.
  unfold auth_with_cookies. cbv zeta. unfold mbind, M_bind at 1.
  by rewrite m_for_cookie_set.
Qed.




(** ** Cookie sets that lack an identity cookie *)


Lemma auth_with_cookies_trace env uat sat sask geo geo_confirmed geo_set login_auth_type st :
  ∃ out st',
    auth_with_cookies env uat sat sask geo geo_confirmed geo_set login_auth_type st
      = (Ok (probe_verdict out), st')
    ∧ trace st' = (trace st ++ [probe_event out])%list
    ∧ config st' = config st.
Proof.
  rewrite auth_with_cookies_run. cbv zeta. rewrite check_auth_run. cbv zeta.
  eexists _, _. split; [reflexivity|]. done.
Qed.




(** ** The browser auth flow *)

Lemma cached_run env st :
  ∃ c r st',
    _auth_with_cached_cookies env st = (r, st') ∧
    ((trace st' = (trace st ++ [EvCacheLoad c])%list ∧ (r = Ok false ∨ ∃ e, r = Raise e)) ∨
     (∃ out, trace st' = (trace st ++ [EvCacheLoad c; probe_event out])%list
             ∧ r = Ok (probe_verdict out))).
Proof.
  unfold _auth_with_cached_cookies, _load_cached_cookies, mbind, M_bind.
  set (c := env_cache_file env st). set (st1 := add_event (EvCacheLoad c) st).
  set (cached := match c with CacheContent j => j | _ => JNull end).
  exists c.
  destruct (py_truthy cached); cbn [negb]; [|eexists _, _; split; [done|left; eauto]].
  unfold lift.
  destruct (py_all_in cached required) as [[]|e]; cbn [negb];
    [|eexists _, _; split; [done|left; eauto]..].
  repeat (match goal with
          | |- context [py_get cached ?k ?d] =>
              destruct (py_get cached k d);
              [|eexists _, _; split; [done|left; eauto]]
          end).
  edestruct auth_with_cookies_trace as (out & st' & -> & Htr & _).
  eexists _, _. split; [done|]. right. exists out. split; [|done].
  rewrite Htr. subst st1. cbn. by rewrite <- app_assoc.
Qed.

Lemma try_browser_run env br st :
  ∃ b evs st',
    try_browser env br st = (Ok b, st') ∧
    trace st' = (trace st ++ evs)%list ∧ attempt_trace b evs.
Proof.
  unfold try_browser, m_try, browser_cookies, mbind, M_bind.
  set (st1 := add_event _ st).
  destruct (env_browser_cookies env st br) as [cj|e] eqn:Hcj.
  2: { eexists false, _, _. split; [done|]. split; [done|]. constructor. }
  destruct (missing_of (cookie_dict cj)).
  2: { eexists false, _, _. split; [done|]. split; [done|]. constructor. }
  edestruct auth_with_cookies_trace as (out & st' & -> & Htr & _).
  destruct (probe_verdict out) eqn:Hv.
  - eexists true, _, _. split; [done|]. split.
    + cbn. rewrite Htr. subst st1. cbn. rewrite <- !app_assoc. done.
    + by constructor.
  - eexists false, _, _. split; [done|]. split.
    + cbn. rewrite Htr. subst st1. cbn. rewrite <- !app_assoc. done.
    + by constructor.
Qed.

Lemma try_browsers_run env brs st :
  ∃ b evs st',
    try_browsers env brs st = (Ok b, st') ∧
    trace st' = (trace st ++ evs)%list ∧ adapters_trace b evs.
Proof.
  revert st. induction brs as [|br brs IH]; intros st.
  - exists false, [], st. split; [done|]. split; [by rewrite app_nil_r|constructor].
  - cbn [try_browsers]. unfold mbind, M_bind at 1.
    destruct (try_browser_run env br st) as (b & evs & st1 & -> & Htr & Hat).
    destruct b.
    + exists true, evs, st1. split; [done|]. split; [done|]. by apply adapters_done.
    + destruct (IH st1) as (b & evs' & st2 & -> & Htr' & Hat').
      exists b, (evs ++ evs')%list, st2. split; [done|]. split.
      * by rewrite Htr', Htr, <- app_assoc.
      * by apply adapters_next.
Qed.

Lemma auth_from_browser_run env browser st :
  ∃ r evs st',
    auth_from_browser env browser false st = (r, st') ∧
    trace st' = (trace st ++ evs)%list ∧ auth_trace r evs.
Proof.
  unfold auth_from_browser. unfold mbind, M_bind at 1.
  destruct (cached_run env st) as (c & r & st1 & -> & Hc).
  assert ((r = Ok true ∧ ∃ out, probe_verdict out = true ∧
             trace st1 = (trace st ++ [EvCacheLoad c; probe_event out])%list) ∨
          (∃ e, r = Raise e ∧ trace st1 = (trace st ++ [EvCacheLoad c])%list) ∨
          (r = Ok false ∧ ∃ evs, cache_miss_trace evs ∧
             trace st1 = (trace st ++ evs)%list)) as Hcases.
  { destruct Hc as [[Htr [->|[e ->]]]|[out [Htr ->]]].
    - right; right. split; [done|]. eexists. split; [|done]. constructor.
    - right; left. eauto.
    - destruct (probe_verdict out) eqn:Hv.
      + left. eauto.
      + right; right. split; [done|]. eexists. split; [|done]. by constructor. }
  destruct Hcases as [[-> (out & Hv & Htr)]|[(e & -> & Htr)|[-> (evs & Hmiss & Htr)]]].
  - eexists _, _, _. split; [done|]. split; [done|]. by constructor.
  - eexists _, _, _. split; [done|]. split; [done|]. constructor.
  - unfold import_browser_cookie3, mbind, M_bind.
    set (st2 := add_event _ st1).
    assert (∀ found, trace (add_event (EvImportBrowserCookie3 found) st1)
                     = (trace st ++ (evs ++ [EvImportBrowserCookie3 found]))%list) as Htr2.
    { intros found. cbn. by rewrite Htr, <- app_assoc. }
    destruct (env_import_browser_cookie3 env st1).
    2: { eexists _, _, _. split; [done|]. split; [apply Htr2|]. by constructor. }
    assert (∀ brs, ∃ r evs' st',
               try_browsers env brs st2 = (r, st') ∧
               trace st' = (trace st ++ evs')%list ∧ auth_trace r evs') as Hloop.
    { intros brs.
      destruct (try_browsers_run env brs st2) as (b & evs' & st3 & -> & Htr3 & Hat).
      eexists _, _, _. split; [done|]. split.
      - rewrite Htr3. subst st2. rewrite Htr2, <- !app_assoc. done.
      - cbn. by constructor. }
    destruct (String.eqb browser "auto"); [apply Hloop|].
    destruct (bool_decide _); [apply Hloop|].
    eexists _, _, _. split; [done|]. split; [apply Htr2|]. by constructor.
Qed.

(** Splitting [l1 ++ l2] at an event that [l1] cannot hold. *)
Lemma app_split_after (P : event → bool) (l1 l2 pre post : list event) (s : event) :
  Forall (fun e => P e = false) l1 → P s = true →
  (l1 ++ l2 = pre ++ s :: post)%list →
  ∃ pre', pre = (l1 ++ pre')%list ∧ l2 = (pre' ++ s :: post)%list.
Proof.
  intros Hall Hs. revert pre.
  induction Hall as [|e l1 He _ IH]; intros pre Heq.
  - by exists pre.
  - destruct pre as [|e' pre]; simplify_eq/=.
    + congruence.
    + destruct (IH pre) as (pre' & -> & ->); [done|]. by exists pre'.
Qed.

Lemma attempt_failed_no_save evs :
  attempt_trace false evs → Forall (fun e => is_cache_save e = false) evs.
Proof. inversion 1; repeat constructor. Qed.

Lemma cache_miss_no_save evs :
  cache_miss_trace evs → Forall (fun e => is_cache_save e = false) evs.
Proof. inversion 1; repeat constructor. Qed.

(** In a browser loop, a cache write closes the trace and directly follows
    the accepted probe of the cookies just read from a browser. *)
Lemma adapters_save b evs pre cookies post :
  adapters_trace b evs →
  evs = (pre ++ EvCacheSave cookies :: post)%list →
  post = [] ∧ b = true ∧
  ∃ pre' br cj out,
    pre = (pre' ++ [EvBrowserCookies br (Ok cj); probe_event out])%list ∧
    probe_verdict out = true ∧ cookies = JDict (cookie_dict cj).
Proof.
  intros Hat. revert pre. induction Hat as [|evs evs' b Hfail _ IH|evs Hok]; intros pre Heq.
  - by destruct pre.
  - destruct (app_split_after is_cache_save evs evs' pre post (EvCacheSave cookies))
      as (pre' & -> & Heq'); [by apply attempt_failed_no_save|done|done|].
    destruct (IH pre' Heq') as (-> & -> & pre'' & br & cj & out & -> & Hv & ->).
    split; [done|]. split; [done|].
    exists (evs ++ pre'')%list, br, cj, out. by rewrite <- app_assoc.
  - inversion Hok as [| |br cj out Hv]; subst.
    destruct pre as [|e1 [|e2 [|e3 pre]]]; simplify_eq/=.
    + split; [done|]. split; [done|]. by exists [], br, cj, out.
    + by destruct pre.
Qed.

Lemma auth_trace_save r evs pre cookies post :
  auth_trace r evs →
  evs = (pre ++ EvCacheSave cookies :: post)%list →
  post = [] ∧ r = Ok true ∧
  ∃ pre' br cj out,
    pre = (pre' ++ [EvBrowserCookies br (Ok cj); probe_event out])%list ∧
    probe_verdict out = true ∧ cookies = JDict (cookie_dict cj).
Proof.
  intros Hat Heq. destruct Hat as [c out Hv|c e|evs e Hmiss|evs e Hmiss|evs evs' b Hmiss Had].
  - destruct pre as [|e1 [|e2 pre]]; simplify_eq/=. by destruct pre.
  - destruct pre as [|e1 pre]; simplify_eq/=. by destruct pre.
  - destruct (app_split_after is_cache_save _ _ _ _ (EvCacheSave cookies)
                (cache_miss_no_save _ Hmiss) eq_refl Heq) as (pre' & -> & Heq').
    destruct pre' as [|e1 pre']; simplify_eq/=. by destruct pre'.
  - destruct (app_split_after is_cache_save _ _ _ _ (EvCacheSave cookies)
                (cache_miss_no_save _ Hmiss) eq_refl Heq) as (pre' & -> & Heq').
    destruct pre' as [|e1 pre']; simplify_eq/=. by destruct pre'.
  - destruct (app_split_after is_cache_save _ _ _ _ (EvCacheSave cookies)
                (cache_miss_no_save _ Hmiss) eq_refl Heq) as (pre' & -> & Heq').
    destruct pre' as [|e1 pre']; [discriminate Heq'|].
    injection Heq' as <- Heq'.
    destruct (adapters_save b evs' pre' cookies post Had Heq')
      as (-> & -> & pre'' & br & cj & out & -> & Hv & ->).
    split; [done|]. split; [done|].
    exists (evs ++ EvImportBrowserCookie3 true :: pre'')%list, br, cj, out.
    by rewrite <- app_assoc.
Qed.

Lemma auth_trace_cache_first r evs :
  auth_trace r evs → ∃ c rest, evs = EvCacheLoad c :: rest.
Proof.
  destruct 1 as [c out Hv|c e|evs e Hmiss|evs e Hmiss|evs evs' b Hmiss Had];
    try (destruct Hmiss); cbn; eauto.
Qed.

Lemma auth_trace_cache_hit r evs c out rest :
  auth_trace r evs →
  evs = EvCacheLoad c :: probe_event out :: rest →
  probe_verdict out = true →
  rest = [] ∧ r = Ok true.
Proof.
  intros Hat Heq Hv.
  destruct Hat as [c' out' Hv'|c' e|evs e Hmiss|evs e Hmiss|evs evs' b Hmiss Had];
    try (destruct Hmiss); simplify_eq/=; try done; congruence.
Qed.

(** C2.  In [auth_from_browser] without [force_refresh], the cache file is
    read before anything else, so before any browser cookie store; the cache
    is written only as the last call, directly after an accepted probe of
    cookies just read from a browser, with those cookies; and when the probe
    of the cached cookies is accepted nothing follows it: no browser is
    read and nothing is written. *)
Theorem auth_from_browser_cache_discipline (env : Env) (browser : string) (st : api) :
  let r := (auth_from_browser env browser false st).1 in
  let st' := (auth_from_browser env browser false st).2 in
  ∃ evs,
    trace st' = (trace st ++ evs)%list ∧
    (∃ c rest, evs = EvCacheLoad c :: rest) ∧
    (∀ pre br cj post, evs = (pre ++ EvBrowserCookies br cj :: post)%list →
       ∃ c pre', pre = EvCacheLoad c :: pre') ∧
    (∀ pre cookies post, evs = (pre ++ EvCacheSave cookies :: post)%list →
       post = [] ∧ r = Ok true ∧
       ∃ pre' br cj out,
         pre = (pre' ++ [EvBrowserCookies br (Ok cj); probe_event out])%list ∧
         probe_verdict out = true ∧ cookies = JDict (cookie_dict cj)) ∧
    (∀ c out rest, evs = EvCacheLoad c :: probe_event out :: rest →
       probe_verdict out = true → rest = [] ∧ r = Ok true).
Proof.
  intros r st'. subst r st'.
  destruct (auth_from_browser_run env browser st) as (r & evs & st' & -> & Htr & Hat).
  exists evs. cbn [fst snd]. split; [done|].
  destruct (auth_trace_cache_first r evs Hat) as (c & rest & ->).
  split; [eauto|]. split; [|split].
  - intros pre br cj post Heq. destruct pre as [|e pre]; simplify_eq/=. eauto.
  - intros pre cookies post Heq. by eapply auth_trace_save.
  - intros c' out rest' Heq Hv. by eapply auth_trace_cache_hit.
Qed.

(** A run that goes through all three stages: the cached cookies are refused,
    the first browser's cookies are accepted and saved. *)
Example auth_from_browser_refresh :
  ∃ st', auth_from_browser env_stale_cache "auto" false api_fresh = (Ok true, st') ∧
    trace st' =
      [ EvCacheLoad (CacheContent cached_cookies);
        probe_event (HttpResp {| status_code := 302;
                                 headers := [("location", "/auth/login/")];
                                 body := BodyEmpty |});
        EvImportBrowserCookie3 true;
        EvBrowserCookies "firefox" (Ok firefox_cookies);
        probe_event (HttpResp (ok_response 200 (JDict [])));
        EvCacheSave (JDict firefox_cookies) ] ∧
    cookies st' !! ((".superjob.ru", "/", "geo") : cookie_key) = Some (JStr "4").
Proof. eexists. split; [vm_compute; reflexivity|]. split; vm_compute; reflexivity. Qed.

(** ** Applying to a vacancy *)

(** [send_message] makes one request, carrying the chat id and the text, and
    reports whether it was accepted. *)
Lemma send_message_events env chat_id message st :
  ∃ m mid sid now out st',
    send_message env chat_id message st = (Ok m, st') ∧
    trace st' = (trace st ++
                 [EvUuid4 mid; EvUuid4 sid; EvNow now;
                  EvPost message_url [("include", JStr message_include)]
                         (message_payload mid sid now chat_id message) out])%list ∧
    mr_success m = send_verdict out.
Proof.
  unfold send_message, uuid4, now_isoformat, m_try, session_post, mbind, M_bind.
  cbn beta iota.
  set (st1 := add_event _ st). set (st2 := add_event _ st1). set (st3 := add_event _ st2).
  set (out := env_post env st3 _ _ _). set (st4 := add_event _ st3).
  assert (trace st4 = (trace st ++
            [EvUuid4 (env_uuid4 env st); EvUuid4 (env_uuid4 env st1);
             EvNow (env_now env st2);
             EvPost message_url [("include", JStr message_include)]
               (message_payload (env_uuid4 env st) (env_uuid4 env st1)
                  (env_now env st2) chat_id message) out])%list) as Htr.
  { subst st4 st3 st2 st1. cbn. by rewrite <- !app_assoc. }
  unfold send_verdict, resp_has_text, resp_json, lift.
  destruct out as [e|r].
  { eexists _, _, _, _, (HttpRaise e), st4.
    split; [reflexivity|]. split; [exact Htr|reflexivity]. }
  destruct (body r) eqn:Hbody;
    (eexists _, _, _, _, (HttpResp r), st4;
     split; [reflexivity|]; split; [exact Htr|cbn; by rewrite Hbody]).
Qed.

(** X18.  What [apply_to_vacancy] does about the cover letter once it has a
    chat id: a message goes out exactly when the [cover_letter] argument is
    truthy; its text is the configured letter, read at the time of the call,
    when the argument is "default", and the argument otherwise; and
    [cover_letter_sent] records the outcome of the send. *)
Lemma apply_to_vacancy_letter env vid rid cl nwe st r st' :
  apply_to_vacancy env vid rid cl nwe st = (Ok r, st') →
  py_truthy (ar_chat_id r) = true →
  ∃ evs, trace st' = (trace st ++ evs)%list ∧
    if letter_truthy cl
    then ∃ mid sid now out,
           posted_to message_url evs
             = [message_payload mid sid now (ar_chat_id r)
                  (resolved_letter (config st) cl)] ∧
           last evs = Some (EvPost message_url [("include", JStr message_include)]
                              (message_payload mid sid now (ar_chat_id r)
                                 (resolved_letter (config st) cl)) out) ∧
           ar_cover_letter_sent r = Some (send_verdict out)
    else posted_to message_url evs = [] ∧ ar_cover_letter_sent r = None.
Proof.
  unfold apply_to_vacancy, uuid4, m_try, session_post, mbind, M_bind.
  cbn beta iota.
  set (st1 := add_event _ st). set (st2 := add_event _ st1). set (st3 := add_event _ st2).
  set (out := env_post env st3 _ _ _). set (st4 := add_event _ st3).
  assert (∃ evs, trace st4 = (trace st ++ evs)%list
                 ∧ posted_to message_url evs = []
                 ∧ config st4 = config st) as (evs & Htr & Hp & Hc).
  { eexists [_; _; _; _].
    split; [subst st4 st3 st2 st1; cbn; rewrite <- !app_assoc; reflexivity|done]. }
  destruct out as [e|resp]; [by intros [= <- <-]|].
  assert (∃ x, (if resp_has_text resp then lift (resp_json resp) else mret (JDict [])) st4
               = (x, st4)) as [x ->] by (destruct (resp_has_text resp); eauto).
  destruct x as [response|e]; [|by intros [= <- <-]].
  destruct (status_ok (status_code resp) && py_truthy response); [|by intros [= <- <-]].
  unfold lift. destruct (extract_chat_id_total response) as [chat_id ->].
  destruct (py_truthy chat_id) eqn:Hchat; cbn [andb].
  2: { intros [= <- <-]. cbn. congruence. }
  destruct (letter_truthy cl) eqn:Hcl.
  2: { intros [= <- <-] _. by exists evs. }
  unfold get_config.
  destruct (send_message_events env chat_id
              (if bool_decide (cl = Some "default")
               then SuperjobConfig.cover_letter (config st4) else default "" cl) st4)
    as (m & mid & sid & now & out & st5 & -> & Htr5 & Hm).
  intros [= <- <-] _. cbn [ar_chat_id ar_cover_letter_sent].
  eexists. split; [by rewrite Htr5, Htr, <- app_assoc|].
  exists mid, sid, now, out. unfold resolved_letter. rewrite <- Hc, Hm.
  split; [|split; [|done]].
  - unfold posted_to in *. rewrite omap_app, Hp. reflexivity.
  - by rewrite last_app.
Qed.

Lemma apply_to_vacancy_letter_witness :
  ∃ evs, trace letter_run.2 = (trace (api_with_letter "Hello") ++ evs)%list ∧
    ∃ mid sid now out,
      posted_to message_url evs
        = [message_payload mid sid now (ar_chat_id letter_result) "Hello"] ∧
      last evs = Some (EvPost message_url [("include", JStr message_include)]
                         (message_payload mid sid now (ar_chat_id letter_result) "Hello")
                         out) ∧
      ar_cover_letter_sent letter_result = Some (send_verdict out).
Proof.
  apply (apply_to_vacancy_letter env_chat (JStr "V1") "R1" (Some "default") false
           (api_with_letter "Hello") letter_result letter_run.2).
  - vm_compute. reflexivity.
  - reflexivity.
Defined.

(** C7, at the input where the code departs from it.  With no [COVER_LETTER]
    configured and the [cover_letter] argument left at its default, the
    resolved text is empty and a message is sent all the same, with the empty
    text; the success of that send is recorded in [cover_letter_sent]. *)
Theorem apply_default_letter_sends_empty_text :
  let st := api_with_letter "" in
  ∃ r st',
    apply_to_vacancy env_chat (JStr "V1") "R1" (Some "default") false st = (Ok r, st') ∧
    resolved_letter (config st) (Some "default") = "" ∧
    ar_chat_id r = JStr "C1" ∧
    ar_chat_url r = Some "https://www.superjob.ru/chat/?chatId=C1" ∧
    ar_cover_letter_sent r = Some true ∧
    posted_to message_url (trace st')
      = [message_payload "4" "5" "2026-01-01T00:00:00+00:00" (JStr "C1") ""].
Proof.
  cbv zeta. eexists _, _. split; [vm_compute; reflexivity|].
  repeat split; vm_compute; reflexivity.
Qed.

(** ** Paging through the results of a keyword *)

Lemma py_range_zrange n : py_range n = zrange 0 (Z.to_nat n).
Proof.
  unfold py_range.
  assert (∀ k i, Z.of_nat <$> seq i k = zrange (Z.of_nat i) k) as H.
  { induction k as [|k IH]; intros i; [reflexivity|].
    cbn [seq fmap list_fmap zrange]. f_equal.
    rewrite IH. f_equal. lia. }
  apply (H _ 0%nat).
Qed.

Lemma search_vacancies_run env kw limit offset st :
  let out := env_get env st search_url (search_params kw limit offset) true in
  search_vacancies env kw limit offset st
  = (Ok (page_result env out),
     add_event (EvGet search_url (search_params kw limit offset) true out) st).
Proof.
  intros out. unfold search_vacancies, m_try, session_get, mbind, M_bind, lift.
  fold out. destruct out as [e|r]; [reflexivity|].
  cbn [page_result]. by destruct (search_result_of env r).
Qed.

Lemma fetched_page_event env kw limit page out evs :
  fetched env (page_event kw limit page out :: evs)
  = (vacancies (page_result env out) ++ fetched env evs)%list.
Proof. reflexivity. Qed.

Lemma fetch_pages_log env kw limit n first all st :
  ∃ outs r st',
    fetch_pages env kw limit (zrange first n) all st = (r, st') ∧
    trace st' = (trace st ++ page_events kw limit first outs)%list ∧
    config st' = config st ∧
    (length outs ≤ n)%nat ∧
    pages_continue env limit first outs ∧
    ((length outs < n)%nat → last_page_halts env limit first outs) ∧
    (∀ vs, r = Ok vs →
       vs = (all ++ fetched env (page_events kw limit first outs))%list).
Proof.
  revert first all st. induction n as [|n IH]; intros first all st.
  - exists [], (Ok all), st. cbn. rewrite !app_nil_r.
    repeat split; try done; try lia. by intros vs [= <-].
  - cbn [zrange fetch_pages]. unfold mbind, M_bind at 1.
    rewrite search_vacancies_run. cbv zeta.
    set (out := env_get env st _ _ _). set (st1 := add_event _ st).
    assert (trace st1 = (trace st ++ page_events kw limit first [out])%list) as Htr1 by done.
    destruct (vacancies (page_result env out)) as [|v vs0] eqn:Hvs.
    { exists [out], (Ok all), st1. split; [done|]. split; [done|].
      cbn [page_events length pages_continue last_page_halts].
      rewrite fetched_page_event, Hvs. cbn. rewrite app_nil_r.
      repeat split; try done; try lia.
      - intros _. by left.
      - by intros ? [= <-]. }
    unfold lift, mbind, M_bind.
    destruct (py_ge (first * limit + limit) (total (page_result env out)))
      as [[]|e] eqn:Hge.
    + exists [out], (Ok (all ++ v :: vs0)%list), st1. split; [done|]. split; [done|].
      cbn [page_events length pages_continue last_page_halts].
      rewrite fetched_page_event, Hvs. cbn. rewrite app_nil_r.
      repeat split; try done; try lia.
      * intros _. right. by rewrite Hge.
      * by intros ? [= <-].
    + destruct (IH (first + 1) (all ++ v :: vs0)%list st1)
        as (outs & r & st' & -> & Htr & Hcfg & Hlen & Hcont & Hlast & Hvs').
      exists (out :: outs), r, st'. split; [done|]. split; [|split; [done|]].
      { rewrite Htr, Htr1. cbn. by rewrite <- app_assoc. }
      split; [cbn; lia|]. split; [|split].
      * destruct outs; [done|]. cbn [pages_continue]. split; [|done].
        split; [by rewrite Hvs|done].
      * intros Hlt. cbn [length] in Hlt.
        assert (last_page_halts env limit (first + 1) outs) as H by (apply Hlast; lia).
        destruct outs; [done|]. exact H.
      * intros vs Hr. rewrite (Hvs' vs Hr).
        cbn [page_events]. rewrite fetched_page_event, Hvs. by rewrite <- app_assoc.
    + exists [out], (Raise e), st1. split; [done|]. split; [done|].
      cbn [page_events length pages_continue last_page_halts].
      repeat split; try done; try lia.
      intros _. right. by rewrite Hge.
Qed.

(** C4.  For a keyword, the loop requests pages 0, 1, 2, ... in order, at
    most [max_pages] of them.  Every answer before the last one had at least
    one vacancy and [offset + limit < total]; and if fewer than [max_pages]
    pages were requested, the last answer had no vacancy or had
    [offset + limit >= total] (a total that is not a number raises there).
    So the loop stops at the first such answer and otherwise runs through
    pages 0..[max_pages]-1. *)
Theorem fetch_pages_halting (env : Env) (kw : string) (limit max_pages : Z) (st : api) :
  let st' := (fetch_pages env kw limit (py_range max_pages) [] st).2 in
  ∃ outs : list http_outcome,
    trace st' = (trace st ++ page_events kw limit 0 outs)%list ∧
    (length outs ≤ Z.to_nat max_pages)%nat ∧
    pages_continue env limit 0 outs ∧
    ((length outs < Z.to_nat max_pages)%nat → last_page_halts env limit 0 outs).
Proof.
  intros st'. subst st'. rewrite py_range_zrange.
  destruct (fetch_pages_log env kw limit (Z.to_nat max_pages) 0 [] st)
    as (outs & r & st' & -> & Htr & _ & Hlen & Hcont & Hlast & _).
  exists outs. done.
Qed.

(** ** The driver *)

Lemma applications_app evs evs' :
  applications (evs ++ evs') = (applications evs ++ applications evs')%list.
Proof. unfold applications, posted_to. by rewrite omap_app, fmap_app. Qed.

Lemma fetched_app env evs evs' :
  fetched env (evs ++ evs') = (fetched env evs ++ fetched env evs')%list.
Proof. unfold fetched. by rewrite bind_app. Qed.

Lemma applications_page_events kw limit first outs :
  applications (page_events kw limit first outs) = [].
Proof. revert first. induction outs as [|out outs IH]; intros first; [done|apply IH]. Qed.

Lemma send_message_run env chat_id message st :
  ∃ m evs st',
    send_message env chat_id message st = (Ok m, st') ∧
    trace st' = (trace st ++ evs)%list ∧ config st' = config st ∧
    applications evs = [] ∧ fetched env evs = [].
Proof.
  unfold send_message, uuid4, now_isoformat, m_try, session_post, mbind, M_bind.
  cbn beta iota.
  set (st1 := add_event _ st). set (st2 := add_event _ st1). set (st3 := add_event _ st2).
  set (out := env_post env st3 _ _ _). set (st4 := add_event _ st3).
  assert (∃ evs, trace st4 = (trace st ++ evs)%list
                 ∧ applications evs = [] ∧ fetched env evs = []) as (evs & Htr & Ha & Hf).
  { eexists [_; _; _; _].
    split; [subst st4 st3 st2 st1; cbn; rewrite <- !app_assoc; reflexivity|done]. }
  destruct out as [e|r]; [by eexists _, evs, st4|].
  destruct (resp_has_text r); [|by eexists _, evs, st4].
  unfold lift. destruct (resp_json r); by eexists _, evs, st4.
Qed.

Lemma apply_to_vacancy_run env vid rid cl nwe st :
  ∃ r evs st',
    apply_to_vacancy env vid rid cl nwe st = (Ok r, st') ∧
    trace st' = (trace st ++ evs)%list ∧ config st' = config st ∧
    applications evs = [vid] ∧ fetched env evs = [].
Proof.
  unfold apply_to_vacancy, uuid4, m_try, session_post, mbind, M_bind.
  cbn beta iota.
  set (st1 := add_event _ st). set (st2 := add_event _ st1). set (st3 := add_event _ st2).
  set (out := env_post env st3 _ _ _). set (st4 := add_event _ st3).
  assert (∃ evs, trace st4 = (trace st ++ evs)%list
                 ∧ applications evs = [vid] ∧ fetched env evs = []
                 ∧ config st4 = config st) as (evs & Htr & Ha & Hf & Hc).
  { eexists [_; _; _; _].
    split; [subst st4 st3 st2 st1; cbn; rewrite <- !app_assoc; reflexivity|done]. }
  assert (∀ r, ∃ r' evs' st', (Ok r : res apply_result, st4) = (Ok r', st') ∧
            trace st' = (trace st ++ evs')%list ∧ config st' = config st ∧
            applications evs' = [vid] ∧ fetched env evs' = []) as Hdone.
  { intros r. by exists r, evs, st4. }
  destruct out as [e|r]; [apply Hdone|].
  assert (∃ x, (if resp_has_text r then lift (resp_json r) else mret (JDict [])) st4
               = (x, st4)) as [x ->] by (destruct (resp_has_text r); eauto).
  destruct x as [response|e]; [|apply Hdone].
  destruct (status_ok (status_code r) && py_truthy response); [|apply Hdone].
  unfold lift. destruct (extract_chat_id_total response) as [chat_id ->].
  destruct (py_truthy chat_id && letter_truthy cl); [|apply Hdone].
  unfold get_config.
  edestruct send_message_run as (m & evs' & st' & -> & Htr' & Hc' & Ha' & Hf').
  eexists _, (evs ++ evs')%list, st'. split; [done|].
  rewrite Htr', Htr, <- app_assoc, applications_app, fetched_app, Ha, Ha', Hf, Hf'.
  split; [done|]. split; [congruence|done].
Qed.

Lemma add_result_counts v r s :
  total_found (add_result v r s) = total_found s ∧
  skipped (add_result v r s) = skipped s ∧
  applied (add_result v r s) + failed (add_result v r s) = applied s + failed s + 1 ∧
  length (results (add_result v r s)) = S (length (results s)).
Proof.
  unfold add_result. destruct (ar_success r); cbn; rewrite length_app; cbn;
    repeat split; lia.
Qed.

(** The loop over the vacancies of one keyword. *)
Lemma apply_all_run env rid vs : ∀ s ids st s' ids' st',
  apply_all env rid vs s ids st = (Ok (s', ids'), st') →
  ∃ evs ks akeys,
    trace st' = (trace st ++ evs)%list ∧
    fetched env evs = [] ∧
    hashed (v_id <$> vs) ks ∧
    hashed (applications evs) akeys ∧
    NoDup akeys ∧
    (∀ h, h ∈ akeys → (h ∉ ids) ∧ h ∈ ks) ∧
    (∀ h, h ∈ ks → h ∈ ids ∨ h ∈ akeys) ∧
    (∀ h, h ∈ ids' ↔ h ∈ ids ∨ h ∈ akeys) ∧
    total_found s' = total_found s ∧
    skipped s' = skipped s + Z.of_nat (length ks) - Z.of_nat (length akeys) ∧
    applied s' + failed s' = applied s + failed s + Z.of_nat (length akeys) ∧
    length (results s') = (length (results s) + length akeys)%nat.
Proof.
  induction vs as [|v vs IH]; intros s ids st s' ids' st' Hrun.
  - unfold apply_all, mret, M_ret in Hrun. simplify_eq. exists [], [], [].
    rewrite app_nil_r. cbn [length]. repeat split; try done; try constructor; try lia;
      try set_solver.
  - cbn [apply_all] in Hrun. unfold mbind, M_bind, lift in Hrun.
    destruct (hash_key (v_id v)) as [h|e] eqn:Hh; [|discriminate Hrun].
    destruct (bool_decide (h ∈ ids)) eqn:Hin.
    + apply bool_decide_eq_true in Hin.
      destruct (IH _ _ _ _ _ _ Hrun)
        as (evs & ks & akeys & Htr & Hf & Hks & Hak & Hnd & Hsub & Hcov & Hids
            & Htot & Hsk & Hap & Hres).
      exists evs, (h :: ks), akeys. cbn in Htot, Hsk, Hap, Hres.
      split; [done|]. split; [done|]. split; [by constructor|].
      split; [done|]. split; [done|].
      split; [intros h' Hh'; destruct (Hsub h' Hh'); split; [done|set_solver]|].
      split; [intros h' [->|Hh']%elem_of_cons; [by left|by apply Hcov]|].
      split; [done|]. split; [done|].
      split; [cbn [length]; lia|]. done.
    + apply bool_decide_eq_false in Hin.
      destruct (apply_to_vacancy_run env (v_id v) rid (Some "default") false st)
        as (r & evs1 & st1 & Happ & Htr1 & _ & Ha1 & Hf1).
      rewrite Happ in Hrun.
      destruct (IH _ _ _ _ _ _ Hrun)
        as (evs & ks & akeys & Htr & Hf & Hks & Hak & Hnd & Hsub & Hcov & Hids
            & Htot & Hsk & Hap & Hres).
      destruct (add_result_counts v r s) as (Ht & Hs & Ha & Hr).
      exists (evs1 ++ evs)%list, (h :: ks), (h :: akeys).
      rewrite fetched_app, applications_app, Hf1, Hf, Ha1.
      split; [by rewrite Htr, Htr1, <- app_assoc|]. split; [done|].
      split; [by constructor|]. split; [by constructor|].
      split.
      { apply NoDup_cons. split; [|done]. intros Hh'.
        destruct (Hsub h Hh') as [Hni _]. set_solver. }
      split.
      { intros h' [->|Hh']%elem_of_cons; [split; [done|set_solver]|].
        destruct (Hsub h' Hh') as [Hni Hk]. split; set_solver. }
      split.
      { intros h' [->|Hh']%elem_of_cons; [right; set_solver|].
        destruct (Hcov h' Hh') as [Hi|Hi]; set_solver. }
      split; [intros h'; rewrite Hids; set_solver|].
      split; [congruence|]. cbn [length].
      split; [lia|]. split; lia.
Qed.

(** The loop over the keywords keeps the accounts of the run. *)
Lemma apply_keywords_run env limit mp rid kws : ∀ s ids st evs0 s' ids' st',
  run_inv env evs0 s ids →
  apply_keywords env kws limit mp rid s ids st = (Ok (s', ids'), st') →
  ∃ evs, trace st' = (trace st ++ evs)%list ∧ run_inv env (evs0 ++ evs) s' ids'.
Proof.
  induction kws as [|kw kws IH]; intros s ids st evs0 s' ids' st' Hinv Hrun.
  - unfold apply_keywords, mret, M_ret in Hrun. simplify_eq.
    exists []. by rewrite !app_nil_r.
  - cbn [apply_keywords] in Hrun. unfold mbind, M_bind at 1 in Hrun.
    rewrite py_range_zrange in Hrun.
    destruct (fetch_pages_log env kw limit (Z.to_nat mp) 0 [] st)
      as (outs & r & st1 & Hfetch & Htr1 & _ & _ & _ & _ & Hvs).
    rewrite Hfetch in Hrun. destruct r as [vs|e]; [|discriminate Hrun].
    specialize (Hvs vs eq_refl). cbn in Hvs.
    unfold mbind, M_bind at 1 in Hrun.
    destruct (apply_all env rid vs _ ids st1) as [[[s1 ids1]|e] st2] eqn:Hall;
      [|discriminate Hrun].
    destruct (apply_all_run _ _ _ _ _ _ _ _ _ Hall)
      as (evs & ks & akeys & Htr & Hf & Hks & Hak & Hnd & Hsub & Hcov & Hids
          & Htot & Hsk & Hap & Hres).
    cbn in Htot, Hsk, Hap, Hres.
    destruct Hinv as (ks0 & akeys0 & Hks0 & Hak0 & Hnd0 & Heq0 & Hids0
                      & Htot0 & Hsk0 & Hap0 & Hres0).
    assert (run_inv env (evs0 ++ (page_events kw limit 0 outs ++ evs)) s1 ids1) as Hinv1.
    { exists (ks0 ++ ks)%list, (akeys0 ++ akeys)%list.
      rewrite !fetched_app, !applications_app, applications_page_events, Hf, <- Hvs.
      rewrite app_nil_r, fmap_app. cbn [app].
      split; [by apply Forall2_app|]. split; [by apply Forall2_app|].
      split.
      { apply NoDup_app. split; [done|]. split; [|done].
        intros h Hh0 Hh. destruct (Hsub h Hh) as [Hni _]. apply Hni, Hids0, Hh0. }
      split.
      { intros h. rewrite !elem_of_app. split.
        - intros [Hh|Hh]; [left; by apply Heq0|right; by apply Hsub].
        - intros [Hh|Hh]; [left; by apply Heq0|].
          destruct (Hcov h Hh) as [Hi|Hi]; [left; by apply Hids0|by right]. }
      split.
      { intros h. rewrite Hids, elem_of_app, Hids0. done. }
      rewrite !length_app. repeat split; try lia.
      assert (length vs = length ks) as Hlen.
      { apply Forall2_length in Hks. by rewrite length_fmap in Hks. }
      lia. }
    destruct (IH _ _ _ _ _ _ _ Hinv1 Hrun) as (evs' & Htr' & Hinv').
    exists ((page_events kw limit 0 outs ++ evs) ++ evs')%list. split.
    + by rewrite Htr', Htr, Htr1, <- !app_assoc.
    + by rewrite app_assoc.
Qed.

Lemma auto_apply_run env keywords limit max_pages resume_id st s st' :
  auto_apply env keywords limit max_pages resume_id st = (Ok (AutoStats s), st') →
  ∃ evs ids, trace st' = (trace st ++ evs)%list ∧ run_inv env evs s ids.
Proof.
  unfold auto_apply, get_config. unfold mbind, M_bind at 1.
  destruct (or_list keywords _) as [|kw kws]; [discriminate|].
  destruct (String.eqb _ _); [discriminate|].
  unfold mbind, M_bind.
  destruct (apply_keywords _ _ _ _ _ _ _ _) as [[[s1 ids1]|e] st1] eqn:Hrun;
    [|discriminate].
  intros [= <- <-].
  assert (run_inv env [] empty_stats ∅) as Hinv0.
  { exists [], []. repeat split; try constructor; try done; set_solver. }
  destruct (apply_keywords_run _ _ _ _ _ _ _ _ _ _ _ _ Hinv0 Hrun) as (evs & Htr & Hinv).
  eauto.
Qed.


(** C3.  In a completed run the vacancy ids applied to are pairwise distinct
    and are exactly the ids fetched: an id fetched several times, under one
    keyword or several, is submitted once.  Every further occurrence adds one
    to [skipped], which ends as the number of fetched occurrences minus the
    number of distinct ids. *)
Theorem auto_apply_dedup env keywords limit max_pages resume_id st s st' :
  auto_apply env keywords limit max_pages resume_id st = (Ok (AutoStats s), st') →
  ∃ evs ks akeys,
    trace st' = (trace st ++ evs)%list ∧
    hashed (v_id <$> fetched env evs) ks ∧
    hashed (applications evs) akeys ∧
    NoDup akeys ∧
    (∀ h, h ∈ akeys ↔ h ∈ ks) ∧
    skipped s = Z.of_nat (length ks) - Z.of_nat (length akeys).
Proof.
  intros Hrun.
  destruct (auto_apply_run _ _ _ _ _ _ _ _ Hrun)
    as (evs & ids & Htr & ks & akeys & Hks & Hak & Hnd & Heq & _ & _ & Hsk & _).
  by exists evs, ks, akeys.
Qed.


Lemma auto_apply_dedup_witness :
  ∃ evs ks akeys,
    trace scenario_run.2 = (trace api_fresh ++ evs)%list ∧
    hashed (v_id <$> fetched env_scenario evs) ks ∧
    hashed (applications evs) akeys ∧
    NoDup akeys ∧
    (∀ h, h ∈ akeys ↔ h ∈ ks) ∧
    skipped scenario_stats = Z.of_nat (length ks) - Z.of_nat (length akeys).
Proof.
  apply (auto_apply_dedup env_scenario (Some ["python"; "devops"]) (Some 2) (Some 1)
           (Some "R1") api_fresh scenario_stats scenario_run.2).
  vm_compute. reflexivity.
Defined.

(** The shared vacancy of the scenario: V2 is fetched twice, applied to once,
    and skipped once. *)
Example scenario_shared_vacancy :
  v_id <$> fetched env_scenario (trace scenario_run.2)
    = [JStr "V1"; JStr "V2"; JStr "V2"; JStr "V3"] ∧
  applications (trace scenario_run.2) = [JStr "V1"; JStr "V2"; JStr "V3"] ∧
  skipped scenario_stats = 1.
Proof. repeat split; vm_compute; reflexivity. Qed.

(** ** The end-to-end scenario *)

Lemma apply_all_skip env rid v vs s ids st h :
  hash_key (v_id v) = Ok h → h ∈ ids →
  apply_all env rid (v :: vs) s ids st = apply_all env rid vs (add_skipped s) ids st.
Proof.
  intros Hh Hin. cbn [apply_all]. unfold mbind, M_bind, lift. rewrite Hh.
  by rewrite bool_decide_eq_true_2.
Qed.

Lemma apply_all_fresh env rid v vs s ids st h r st1 :
  hash_key (v_id v) = Ok h → h ∉ ids →
  apply_to_vacancy env (v_id v) rid (Some "default") false st = (Ok r, st1) →
  apply_all env rid (v :: vs) s ids st
  = apply_all env rid vs (add_result v r s) ({[h]} ∪ ids) st1.
Proof.
  intros Hh Hin Happ. cbn [apply_all]. unfold mbind, M_bind, lift. rewrite Hh.
  rewrite bool_decide_eq_false_2 by done. by rewrite Happ.
Qed.

Lemma fetch_single_page env kw limit st sr v vs :
  page_result env (env_get env st search_url (search_params kw limit 0) true) = sr →
  vacancies sr = v :: vs →
  py_ge limit (total sr) = Ok true →
  ∃ st', fetch_pages env kw limit (py_range 1) [] st = (Ok (v :: vs), st').
Proof.
  intros Hsr Hvs Hge. change (py_range 1) with [0]. cbn [fetch_pages].
  unfold mbind, M_bind at 1. rewrite search_vacancies_run. cbv zeta.
  change (0 * limit) with 0 in *. rewrite Hsr, Hvs.
  unfold mbind, M_bind, lift. rewrite Z.add_0_l, Hge. eauto.
Qed.

Lemma apply_keywords_cons env kw kws limit mp rid s ids st vs st1 s1 ids1 st2 :
  fetch_pages env kw limit (py_range mp) [] st = (Ok vs, st1) →
  apply_all env rid vs (add_found (Z.of_nat (length vs)) s) ids st1
    = (Ok (s1, ids1), st2) →
  apply_keywords env (kw :: kws) limit mp rid s ids st
  = apply_keywords env kws limit mp rid s1 ids1 st2.
Proof.
  intros Hfetch Hall. cbn [apply_keywords]. unfold mbind, M_bind at 1.
  rewrite Hfetch. unfold mbind, M_bind at 1. by rewrite Hall.
Qed.

(** C8.  Keywords [python, devops], one page of two per keyword; the search
    for "python" answers V1, V2 with total 2 and the search for "devops"
    answers V2, V3 with total 2; every application succeeds.  Then the run
    returns total_found = 4, applied = 3 (V1, V2, V3 in this order),
    skipped = 1, failed = 0. *)
Theorem auto_apply_scenario (env : Env) (st : api)
    (keywords : option (list string)) (limit max_pages : option Z)
    (resume_id : option string) (rid : string) (v1 v2 v2' v3 : vacancy) :
  or_list keywords (SuperjobConfig.search_keywords (config st)) = ["python"; "devops"] →
  or_int limit (SuperjobConfig.search_limit (config st)) = 2 →
  or_int max_pages (SuperjobConfig.max_pages (config st)) = 1 →
  or_str resume_id (SuperjobConfig.resume_id (config st)) = rid →
  rid ≠ "" →
  v_id v1 = JStr "V1" → v_id v2 = JStr "V2" →
  v_id v2' = JStr "V2" → v_id v3 = JStr "V3" →
  (∀ st, page_result env (env_get env st search_url (search_params "python" 2 0) true)
         = {| total := JInt 2; vacancies := [v1; v2] |}) →
  (∀ st, page_result env (env_get env st search_url (search_params "devops" 2 0) true)
         = {| total := JInt 2; vacancies := [v2'; v3] |}) →
  (∀ vid st, ∃ r st', apply_to_vacancy env vid rid (Some "default") false st = (Ok r, st')
                      ∧ ar_success r = true) →
  ∃ s st',
    auto_apply env keywords limit max_pages resume_id st = (Ok (AutoStats s), st') ∧
    total_found s = 4 ∧ applied s = 3 ∧ skipped s = 1 ∧ failed s = 0 ∧
    e_vacancy_id <$> results s = [JStr "V1"; JStr "V2"; JStr "V3"].
Proof.
  intros Hkw Hlimit Hpages Hrid Hne Hv1 Hv2 Hv2' Hv3 Hpy Hdev Happ.
  destruct (fetch_single_page env "python" 2 st _ v1 [v2] (Hpy st) eq_refl eq_refl)
    as [st1 Hf1].
  destruct (Happ (v_id v1) st1) as (r1 & st2 & Ha1 & Hs1).
  destruct (Happ (v_id v2) st2) as (r2 & st3 & Ha2 & Hs2).
  destruct (fetch_single_page env "devops" 2 st3 _ v2' [v3] (Hdev st3) eq_refl eq_refl)
    as [st4 Hf2].
  destruct (Happ (v_id v3) st4) as (r3 & st5 & Ha3 & Hs3).
  set (s0 := add_found (Z.of_nat (length [v1; v2])) empty_stats).
  set (s1 := add_result v2 r2 (add_result v1 r1 s0)).
  set (ids1 := ({[inr "V2"]} ∪ ({[inr "V1"]} ∪ ∅) : gset hkey)).
  assert (apply_all env rid [v1; v2] s0 ∅ st1 = (Ok (s1, ids1), st3)) as Hall1.
  { rewrite (apply_all_fresh env rid v1 _ _ _ _ (inr "V1") r1 st2);
      [|by rewrite Hv1|set_solver|done].
    rewrite (apply_all_fresh env rid v2 _ _ _ _ (inr "V2") r2 st3);
      [|by rewrite Hv2|set_solver|done].
    reflexivity. }
  set (s2 := add_found (Z.of_nat (length [v2'; v3])) s1).
  set (s3 := add_result v3 r3 (add_skipped s2)).
  assert (apply_all env rid [v2'; v3] s2 ids1 st4
          = (Ok (s3, {[inr "V3"]} ∪ ids1), st5)) as Hall2.
  { rewrite (apply_all_skip env rid v2' _ _ _ _ (inr "V2"));
      [|by rewrite Hv2'|set_solver].
    rewrite (apply_all_fresh env rid v3 _ _ _ _ (inr "V3") r3 st5);
      [|by rewrite Hv3|set_solver|done].
    reflexivity. }
  exists s3, st5. split.
  - unfold auto_apply, get_config. unfold mbind, M_bind at 1.
    rewrite Hkw, Hlimit, Hpages, Hrid.
    destruct (String.eqb rid "") eqn:E; [by apply String.eqb_eq in E|].
    unfold mbind, M_bind.
    rewrite (apply_keywords_cons _ _ _ _ _ _ _ _ _ _ _ _ _ _ Hf1 Hall1).
    rewrite (apply_keywords_cons _ _ _ _ _ _ _ _ _ _ _ _ _ _ Hf2 Hall2).
    reflexivity.
  - subst s3 s2 s1 s0. unfold add_result. rewrite Hs1, Hs2, Hs3. cbn.
    by rewrite Hv1, Hv2, Hv3.
Qed.

Lemma auto_apply_scenario_witness :
  ∃ s st',
    auto_apply env_scenario (Some ["python"; "devops"]) (Some 2) (Some 1) (Some "R1")
      api_fresh = (Ok (AutoStats s), st') ∧
    total_found s = 4 ∧ applied s = 3 ∧ skipped s = 1 ∧ failed s = 0 ∧
    e_vacancy_id <$> results s = [JStr "V1"; JStr "V2"; JStr "V3"].
Proof.
  apply (auto_apply_scenario env_scenario api_fresh _ _ _ _ "R1"
           (scenario_vacancy "V1" "Python developer")
           (scenario_vacancy "V2" "Backend engineer")
           (scenario_vacancy "V2" "Backend engineer")
           (scenario_vacancy "V3" "SRE")).
  - reflexivity.
  - reflexivity.
  - reflexivity.
  - reflexivity.
  - discriminate.
  - reflexivity.
  - reflexivity.
  - reflexivity.
  - reflexivity.
  - intros st. vm_compute. reflexivity.
  - intros st. vm_compute. reflexivity.
  - intros vid st.
    destruct (apply_to_vacancy env_scenario vid "R1" (Some "default") false st)
      as [r st'] eqn:E.
    vm_compute in E. injection E as <- <-.
    eexists _, _. split; reflexivity.
Defined.

(** ** More on the browser auth flow *)

Lemma browser_reads_app evs evs' :
  browser_reads (evs ++ evs') = (browser_reads evs ++ browser_reads evs')%list.
Proof. unfold browser_reads. by rewrite omap_app. Qed.

Lemma try_browser_reads env br st :
  ∃ b evs st',
    try_browser env br st = (Ok b, st') ∧
    trace st' = (trace st ++ evs)%list ∧
    attempt_trace b evs ∧ browser_reads evs = [br].
Proof.
  unfold try_browser, m_try, browser_cookies, mbind, M_bind.
  set (st1 := add_event _ st).
  destruct (env_browser_cookies env st br) as [cj|e] eqn:Hcj.
  2: { eexists false, _, _. split; [done|]. split; [done|]. split; [constructor|done]. }
  destruct (missing_of (cookie_dict cj)).
  2: { eexists false, _, _. split; [done|]. split; [done|]. split; [constructor|done]. }
  edestruct auth_with_cookies_trace as (out & st' & -> & Htr & _).
  destruct (probe_verdict out) eqn:Hv.
  - eexists true, [_; _; _], _. split; [done|]. split.
    + cbn. rewrite Htr. subst st1. cbn. rewrite <- !app_assoc. done.
    + split; [by constructor|done].
  - eexists false, [_; _], _. split; [done|]. split.
    + cbn. rewrite Htr. subst st1. cbn. rewrite <- !app_assoc. done.
    + split; [by constructor|done].
Qed.

Lemma try_browsers_reads env brs st :
  ∃ b evs st',
    try_browsers env brs st = (Ok b, st') ∧
    trace st' = (trace st ++ evs)%list ∧
    adapters_trace b evs ∧
    browser_reads evs `prefix_of` brs ∧
    (b = false → browser_reads evs = brs).
Proof.
  revert st. induction brs as [|br brs IH]; intros st.
  - exists false, [], st. split; [done|]. split; [by rewrite app_nil_r|].
    split; [constructor|]. done.
  - cbn [try_browsers]. unfold mbind, M_bind at 1.
    destruct (try_browser_reads env br st) as (b & evs & st1 & -> & Htr & Hat & Hrd).
    destruct b.
    + exists true, evs, st1. split; [done|]. split; [done|].
      split; [by apply adapters_done|]. rewrite Hrd.
      split; [by exists brs|done].
    + destruct (IH st1) as (b & evs' & st2 & -> & Htr' & Hat' & Hpre & Hall).
      exists b, (evs ++ evs')%list, st2. split; [done|]. split.
      { by rewrite Htr', Htr, <- app_assoc. }
      split; [by apply adapters_next|].
      rewrite browser_reads_app, Hrd. cbn [app]. split.
      * by apply prefix_cons.
      * intros Hb. by rewrite (Hall Hb).
Qed.

(** The forced flow: the import, then the browsers. *)
Lemma auth_from_browser_forced_run env browser st :
  ∃ r evs st',
    auth_from_browser env browser true st = (r, st') ∧
    trace st' = (trace st ++ evs)%list ∧
    ((∃ e found, r = Raise e ∧ evs = [EvImportBrowserCookie3 found]) ∨
     (∃ b evs', r = Ok b ∧ evs = EvImportBrowserCookie3 true :: evs' ∧
                adapters_trace b evs' ∧
                browser_reads evs' `prefix_of` browsers_for browser ∧
                (b = false → browser_reads evs' = browsers_for browser))).
Proof.
  unfold auth_from_browser. unfold mbind, M_bind at 1. unfold mret, M_ret at 1.
  unfold import_browser_cookie3, mbind, M_bind.
  set (st2 := add_event _ st).
  destruct (env_import_browser_cookie3 env st).
  2: { eexists _, _, _. split; [done|]. split; [done|]. left. eauto. }
  assert (∀ brs, brs = browsers_for browser → ∃ r evs st',
             try_browsers env brs st2 = (r, st') ∧
             trace st' = (trace st ++ evs)%list ∧
             ((∃ e found, r = Raise e ∧ evs = [EvImportBrowserCookie3 found]) ∨
              (∃ b evs', r = Ok b ∧ evs = EvImportBrowserCookie3 true :: evs' ∧
                 adapters_trace b evs' ∧
                 browser_reads evs' `prefix_of` browsers_for browser ∧
                 (b = false → browser_reads evs' = browsers_for browser)))) as Hloop.
  { intros brs ->.
    destruct (try_browsers_reads env (browsers_for browser) st2)
      as (b & evs' & st3 & -> & Htr3 & Hat & Hpre & Hall).
    eexists _, _, _. split; [done|]. split.
    - rewrite Htr3. subst st2. cbn. by rewrite <- app_assoc.
    - right. by exists b, evs'. }
  unfold browsers_for in *.
  destruct (String.eqb browser "auto"); [exact (Hloop _ eq_refl)|].
  destruct (bool_decide _); [exact (Hloop _ eq_refl)|].
  eexists _, _, _. split; [done|]. split; [done|]. left. eauto.
Qed.

(** Without [force_refresh] the flow is the cached path and, when that does
    not authenticate, the forced flow. *)
Lemma auth_from_browser_split env browser st :
  auth_from_browser env browser false st
  = match _auth_with_cached_cookies env st with
    | (Ok true, st1) => (Ok true, st1)
    | (Ok false, st1) => auth_from_browser env browser true st1
    | (Raise e, st1) => (Raise e, st1)
    end.
Proof.
  unfold auth_from_browser. unfold mbind, M_bind at 1 4.
  destruct (_auth_with_cached_cookies env st) as [[[]|e] st1]; reflexivity.
Qed.

Lemma attempt_accepted_probe b evs :
  attempt_trace b evs →
  (b = true ↔ ∃ e, e ∈ evs ∧ is_accepted_probe e = true).
Proof.
  destruct 1 as [br cj|br cj out Hv|br cj out Hv]; split; try done.
  - intros (e & He & Hacc). apply list_elem_of_singleton in He as ->. done.
  - intros (e & He & Hacc).
    apply elem_of_cons in He as [->|He]; [done|].
    apply list_elem_of_singleton in He as ->. cbn in Hacc. congruence.
  - intros _. exists (probe_event out). split; [set_solver|]. exact Hv.
Qed.

Lemma adapters_accepted_probe b evs :
  adapters_trace b evs →
  (b = true ↔ ∃ e, e ∈ evs ∧ is_accepted_probe e = true).
Proof.
  induction 1 as [|evs evs' b Hfail _ IH|evs Hok].
  - split; [done|]. intros (e & He & _). by apply elem_of_nil in He.
  - rewrite IH. split.
    + intros (e & He & Hacc). exists e. split; [|done]. apply elem_of_app. by right.
    + intros (e & He & Hacc). apply elem_of_app in He as [He|He]; [|eauto].
      apply attempt_accepted_probe in Hfail.
      assert (false = true) by (apply Hfail; eauto). done.
  - by apply attempt_accepted_probe.
Qed.

Lemma adapters_no_cache_load b evs :
  adapters_trace b evs → Forall (fun e => is_cache_load e = false) evs.
Proof.
  induction 1 as [|evs evs' b Hfail _ IH|evs Hok].
  - constructor.
  - apply Forall_app. split; [|done]. inversion Hfail; repeat constructor.
  - inversion Hok; repeat constructor.
Qed.

(** X1.  With [force_refresh=True] the cache file is never read: the first
    call is the import of the browser module and no later call loads the
    cache. *)
Theorem auth_from_browser_forced_skips_cache (env : Env) (browser : string) (st : api) :
  let st' := (auth_from_browser env browser true st).2 in
  ∃ found rest,
    trace st' = (trace st ++ EvImportBrowserCookie3 found :: rest)%list ∧
    Forall (fun e => is_cache_load e = false) rest.
Proof.
  cbv zeta.
  destruct (auth_from_browser_forced_run env browser st)
    as (r & evs & st' & -> & Htr & [(e & found & -> & ->)|(b & evs' & -> & -> & Hat & _)]).
  - exists found, []. split; [done|constructor].
  - exists true, evs'. split; [done|]. by eapply adapters_no_cache_load.
Qed.

(** X2.  The browsers are read in a fixed order and the loop stops at the
    first whose cookies are accepted: the stores read are a prefix of
    firefox, chrome, edge, safari for "auto" (of the one named browser
    otherwise), and when the flow answers [False] all of them were read. *)
Theorem auth_from_browser_order (env : Env) (browser : string) (force_refresh : bool)
    (st : api) :
  let r := (auth_from_browser env browser force_refresh st).1 in
  let st' := (auth_from_browser env browser force_refresh st).2 in
  ∃ evs,
    trace st' = (trace st ++ evs)%list ∧
    browser_reads evs `prefix_of` browsers_for browser ∧
    (r = Ok false → browser_reads evs = browsers_for browser).
Proof.
  cbv zeta.
  assert (∀ st, ∃ evs,
            trace (auth_from_browser env browser true st).2 = (trace st ++ evs)%list ∧
            browser_reads evs `prefix_of` browsers_for browser ∧
            ((auth_from_browser env browser true st).1 = Ok false →
             browser_reads evs = browsers_for browser)) as Hforced.
  { intros st0.
    destruct (auth_from_browser_forced_run env browser st0)
      as (r & evs & st' & -> & Htr
          & [(e & found & -> & ->)|(b & evs' & -> & -> & Hat & Hpre & Hall)]).
    - eexists. split; [done|]. split; [apply prefix_nil|done].
    - eexists. split; [done|]. split; [done|]. by intros [= ->]; apply Hall. }
  destruct force_refresh; [apply Hforced|].
  rewrite auth_from_browser_split.
  destruct (cached_run env st) as (c & r & st1 & -> & Hc).
  assert (∃ evs0, trace st1 = (trace st ++ evs0)%list ∧ browser_reads evs0 = [])
    as (evs0 & Htr0 & Hrd0).
  { destruct Hc as [[Htr _]|[out [Htr _]]]; eauto. }
  destruct r as [[]|e].
  - exists evs0. split; [done|]. rewrite Hrd0. split; [apply prefix_nil|done].
  - destruct (Hforced st1) as (evs & Htr & Hpre & Hall).
    exists (evs0 ++ evs)%list. rewrite browser_reads_app, Hrd0. cbn [app].
    split; [by rewrite Htr, Htr0, <- app_assoc|done].
  - exists evs0. split; [done|]. rewrite Hrd0. split; [apply prefix_nil|done].
Qed.

(** X3.  [auth_from_browser] answers [True] exactly when one of its probes was
    answered with status 200; it never reports failure after an accepted
    probe and never reports success without one. *)
Theorem auth_from_browser_true_iff_accepted (env : Env) (browser : string)
    (force_refresh : bool) (st : api) :
  let r := (auth_from_browser env browser force_refresh st).1 in
  let st' := (auth_from_browser env browser force_refresh st).2 in
  ∃ evs,
    trace st' = (trace st ++ evs)%list ∧
    ∀ b, r = Ok b → (b = true ↔ ∃ e, e ∈ evs ∧ is_accepted_probe e = true).
Proof.
  cbv zeta.
  assert (∀ st, ∃ evs,
            trace (auth_from_browser env browser true st).2 = (trace st ++ evs)%list ∧
            ∀ b, (auth_from_browser env browser true st).1 = Ok b →
                 (b = true ↔ ∃ e, e ∈ evs ∧ is_accepted_probe e = true)) as Hforced.
  { intros st0.
    destruct (auth_from_browser_forced_run env browser st0)
      as (r & evs & st' & -> & Htr
          & [(e & found & -> & ->)|(b & evs' & -> & -> & Hat & _)]).
    - eexists. split; [done|]. by intros b.
    - eexists. split; [done|]. intros b' [= <-].
      rewrite (adapters_accepted_probe _ _ Hat). split.
      + intros (e & He & Hacc). exists e. split; [by apply elem_of_cons; right|done].
      + intros (e & [->|He]%elem_of_cons & Hacc); [done|eauto]. }
  destruct force_refresh; [apply Hforced|].
  rewrite auth_from_browser_split.
  destruct (cached_run env st) as (c & r & st1 & -> & Hc).
  destruct Hc as [[Htr [->|[e ->]]]|[out [Htr ->]]].
  - destruct (Hforced st1) as (evs & Htr' & Hiff).
    exists ([EvCacheLoad c] ++ evs)%list.
    split; [by rewrite Htr', Htr, <- app_assoc|].
    intros b Hb. rewrite (Hiff b Hb). split.
    + intros (e & He & Hacc). exists e. split; [by apply elem_of_cons; right|done].
    + intros (e & [->|He]%elem_of_cons & Hacc); [done|eauto].
  - eexists. split; [done|]. by intros b.
  - destruct (probe_verdict out) eqn:Hv.
    + eexists. split; [done|]. intros b [= <-]. split; [|done].
      intros _. exists (probe_event out). split; [set_solver|done].
    + destruct (Hforced st1) as (evs & Htr' & Hiff).
      exists ([EvCacheLoad c; probe_event out] ++ evs)%list.
      split; [by rewrite Htr', Htr, <- app_assoc|].
      intros b Hb. rewrite (Hiff b Hb). split.
      * intros (e & He & Hacc). exists e. split; [|done].
        apply elem_of_app. by right.
      * intros (e & [He|He]%elem_of_app & Hacc); [|eauto].
        apply elem_of_cons in He as [->|He]; [done|].
        apply list_elem_of_singleton in He as ->. cbn in Hacc. congruence.
Qed.

(** X4.  The two precondition violations of [auth_from_browser] raise before
    any browser store is read: a missing [browser_cookie3] module raises
    [ImportError], and a browser name that is neither "auto" nor one of the
    four known names raises [ValueError]. *)
Theorem auth_from_browser_precondition (env : Env) (browser : string) (st : api) :
  (env_import_browser_cookie3 env st = false →
   ∃ msg, auth_from_browser env browser true st
          = (Raise (ImportError msg), add_event (EvImportBrowserCookie3 false) st)) ∧
  (env_import_browser_cookie3 env st = true →
   browser ≠ "auto" → browser ∉ browser_funcs →
   ∃ msg, auth_from_browser env browser true st
          = (Raise (ValueError msg), add_event (EvImportBrowserCookie3 true) st)).
Proof.
  unfold auth_from_browser, import_browser_cookie3, mbind, M_bind, mret, M_ret. split.
  - intros ->. eauto.
  - intros -> Hauto Hfun.
    destruct (String.eqb browser "auto") eqn:E; [by apply String.eqb_eq in E|].
    rewrite bool_decide_eq_false_2 by done. unfold raise, lift. eauto.
Qed.

Lemma auth_from_browser_precondition_witness :
  ∃ msg, auth_from_browser env_stale_cache "opera" true api_fresh
         = (Raise (ValueError msg), add_event (EvImportBrowserCookie3 true) api_fresh).
Proof.
  apply (proj2 (auth_from_browser_precondition env_stale_cache "opera" api_fresh)).
  - reflexivity.
  - discriminate.
  - unfold browser_funcs. intros H. repeat (apply elem_of_cons in H as [H|H]; [discriminate H|]).
    by apply elem_of_nil in H.
Defined.

Lemma py_all_in_missing d k ks :
  k ∈ ks → dict_get d k = None → py_all_in (JDict d) ks = Ok false.
Proof.
  induction ks as [|k' ks IH]; intros Hin Hnone; [by apply elem_of_nil in Hin|].
  cbn [py_all_in py_contains mbind res_bind].
  destruct (dict_get d k') as [v|] eqn:Hk'.
  - rewrite bool_decide_eq_true_2 by eauto. apply IH; [|done].
    apply elem_of_cons in Hin as [->|Hin]; [congruence|done].
  - rewrite bool_decide_eq_false_2; [done|]. by intros [? ?].
Qed.

(** X5.  The cached path answers [False] without probing and without
    touching the jar when the cache file is absent or unreadable, when its
    content is falsy (null, an empty object, ...), and when it is an object
    that lacks one of [uat], [sat], [sask]. *)
Theorem cached_cookies_unusable (env : Env) (st : api) :
  match env_cache_file env st with
  | CacheAbsent | CacheError _ => True
  | CacheContent j =>
      py_truthy j = false ∨ ∃ d k, j = JDict d ∧ k ∈ required ∧ dict_get d k = None
  end →
  _auth_with_cached_cookies env st
  = (Ok false, add_event (EvCacheLoad (env_cache_file env st)) st).
Proof.
  unfold _auth_with_cached_cookies, _load_cached_cookies, mbind, M_bind.
  destruct (env_cache_file env st) as [|j|e]; [done| |done].
  intros [Hfalsy|(d & k & -> & Hk & Hnone)].
  - by rewrite Hfalsy.
  - destruct (py_truthy (JDict d)); [|done]. cbn [negb]. unfold lift.
    by rewrite (py_all_in_missing d k required Hk Hnone).
Qed.

Lemma cached_cookies_unusable_witness :
  _auth_with_cached_cookies env_accepting api_stale
  = (Ok false, add_event (EvCacheLoad CacheAbsent) api_stale).
Proof. apply (cached_cookies_unusable env_accepting api_stale). exact I. Defined.

(** X6.  A cache file whose content is a non-zero number or [true] is not
    treated as a cache miss: the membership test raises [TypeError], which
    [auth_from_browser] lets through, before any probe and with no browser
    read. *)
Theorem auth_from_browser_number_cache (env : Env) (browser : string) (st : api) (j : json) :
  env_cache_file env st = CacheContent j →
  (j = JBool true ∨ ∃ n, n ≠ 0 ∧ j = JInt n) →
  ∃ msg, auth_from_browser env browser false st
         = (Raise (TypeError msg), add_event (EvCacheLoad (CacheContent j)) st).
Proof.
  intros Hc Hj. rewrite auth_from_browser_split.
  unfold _auth_with_cached_cookies, _load_cached_cookies, mbind, M_bind. rewrite Hc.
  destruct Hj as [->|(n & Hn & ->)]; cbn.
  - eauto.
  - destruct (n =? 0) eqn:E; [by apply Z.eqb_eq in E|]. cbn. eauto.
Qed.

Lemma auth_from_browser_number_cache_witness :
  ∃ msg, auth_from_browser env_number_cache "auto" false api_fresh
         = (Raise (TypeError msg),
            add_event (EvCacheLoad (CacheContent (JInt 42))) api_fresh).
Proof.
  apply (auth_from_browser_number_cache env_number_cache "auto" api_fresh (JInt 42)).
  - reflexivity.
  - right. exists 42. split; [lia|reflexivity].
Defined.

(** ** Cookie dicts *)

Lemma dict_get_set_eq {V} (d : list (string * V)) k v :
  dict_get (dict_set d k v) k = Some v.
Proof.
  induction d as [|[k' v'] d IH]; cbn.
  - by rewrite String.eqb_refl.
  - destruct (String.eqb k' k) eqn:E; cbn; [by rewrite String.eqb_refl|].
    by rewrite E.
Qed.

Lemma dict_get_set_ne {V} (d : list (string * V)) k k' v :
  k ≠ k' → dict_get (dict_set d k v) k' = dict_get d k'.
Proof.
  intros Hne. induction d as [|[k0 v0] d IH]; cbn.
  - destruct (String.eqb k k') eqn:E; [by apply String.eqb_eq in E|done].
  - destruct (String.eqb k0 k) eqn:E; cbn.
    + apply String.eqb_eq in E as ->.
      destruct (String.eqb k k') eqn:E'; [by apply String.eqb_eq in E'|done].
    + by rewrite IH.
Qed.

Lemma dict_set_keys {V} (d : list (string * V)) k v k' :
  k' ∈ (dict_set d k v).*1 ↔ k' = k ∨ k' ∈ d.*1.
Proof.
  induction d as [|[k0 v0] d IH]; cbn.
  - rewrite list_elem_of_singleton, elem_of_nil. naive_solver.
  - destruct (String.eqb k0 k) eqn:E; cbn.
    + apply String.eqb_eq in E as ->. rewrite !elem_of_cons. naive_solver.
    + rewrite !elem_of_cons, IH. naive_solver.
Qed.

Lemma dict_set_NoDup {V} (d : list (string * V)) k v :
  NoDup d.*1 → NoDup (dict_set d k v).*1.
Proof.
  induction d as [|[k0 v0] d IH]; cbn; intros Hnd.
  - apply NoDup_singleton.
  - apply NoDup_cons in Hnd as [Hk0 Hnd].
    destruct (String.eqb k0 k) eqn:E; cbn.
    + apply String.eqb_eq in E as ->. by apply NoDup_cons.
    + apply NoDup_cons. split; [|by apply IH].
      rewrite dict_set_keys. intros [->|Hin]; [|done].
      by rewrite String.eqb_refl in E.
Qed.

Lemma cookie_dict_snoc cj name value :
  cookie_dict (cj ++ [(name, value)]) = dict_set (cookie_dict cj) name value.
Proof. unfold cookie_dict. by rewrite foldl_app. Qed.

(** X7.  The dict built from a browser's cookies, which is what gets saved to
    the cache, holds every cookie name once, with the value of the last
    cookie of that name. *)
Theorem cookie_dict_last_wins (cj : list (string * json)) :
  NoDup (cookie_dict cj).*1 ∧
  ∀ name, dict_get (cookie_dict cj) name = last_cookie cj name.
Proof.
  induction cj as [|[n v] cj [IHnd IHget]] using rev_ind.
  - split; [constructor|done].
  - rewrite cookie_dict_snoc. split; [by apply dict_set_NoDup|].
    intros name. unfold last_cookie. rewrite reverse_app. cbn [reverse app dict_get].
    change (reverse [(n, v)]) with [(n, v)]. cbn [app dict_get].
    destruct (String.eqb n name) eqn:E.
    + apply String.eqb_eq in E as ->. apply dict_get_set_eq.
    + rewrite dict_get_set_ne; [apply IHget|]. intros ->. by rewrite String.eqb_refl in E.
Qed.

(** ** Cookie files *)

Lemma parse_cookie_lines_fold lines :
  parse_cookie_lines lines = foldl cookie_line_step [] lines.
Proof. reflexivity. Qed.





(** The value of [sask] in that file keeps its second equals sign, and the
    comment line is skipped for want of one. *)
Example parse_cookie_lines_complete :
  parse_cookie_lines lines_complete
  = [("uat", JStr "u1"); ("sat", JStr "s1"); ("sask", JStr "k=1"); ("geo", JStr "4")].
Proof. reflexivity. Qed.

(** X9.  A line of the cookie file that is blank, or has no equals sign, once
    stripped, changes nothing: the parsed cookies are those of the file
    without that line. *)
Theorem parse_cookie_lines_ignored (before after : list string) (line : string) :
  py_strip line = "" ∨ substring_in "=" (py_strip line) = false →
  parse_cookie_lines (before ++ line :: after) = parse_cookie_lines (before ++ after).
Proof.
  intros Hline.
  assert (∀ d, cookie_line_step d line = d) as Hstep.
  { intros d. unfold cookie_line_step. cbv zeta.
    destruct Hline as [-> | ->]; [reflexivity|].
    rewrite andb_false_r. reflexivity. }
  rewrite (parse_cookie_lines_fold (before ++ line :: after)),
    (parse_cookie_lines_fold (before ++ after)), !foldl_app.
  cbn [foldl]. by rewrite Hstep.
Qed.

Lemma parse_cookie_lines_ignored_witness :
  parse_cookie_lines (["uat=u1"] ++ "  # no cookie here  " :: ["sat=s1"])
  = parse_cookie_lines (["uat=u1"] ++ ["sat=s1"]).
Proof.
  apply (parse_cookie_lines_ignored ["uat=u1"] ["sat=s1"] "  # no cookie here  ").
  right. reflexivity.
Defined.

(** ** Searching *)

(** X10.  [search_vacancies] never raises and makes exactly one request, a
    GET of the vacancy list with the page limit, the offset, the keywords
    and the include directive.  A transport failure, a status other than 200,
    and a body that is empty, unparsable or not an object all give total 0
    and no vacancies. *)
Theorem search_vacancies_fallback (env : Env) (kw : string) (limit offset : Z) (st : api) :
  let params := [ ("page[limit]", JInt limit); ("page[offset]", JInt offset);
                  ("filters[keywords]", JStr kw);
                  ("include", JStr "mainInfo,companyInfo") ] in
  let url := "https://www.superjob.ru/jsapi3/0.1/vacancy/" in
  let out := env_get env st url params true in
  ∃ sr,
    search_vacancies env kw limit offset st
      = (Ok sr, add_event (EvGet url params true out) st) ∧
    (match out with
     | HttpRaise _ => True
     | HttpResp r =>
         status_code r ≠ 200 ∨
         match body r with
         | BodyEmpty | BodyInvalid _ => True
         | BodyJson j => is_object j = false
         end
     end → sr = no_results).
Proof.
  cbv zeta. eexists. split; [apply search_vacancies_run|].
  destruct (env_get env st _ _ _) as [e|r]; [done|]. cbn [page_result].
  unfold search_result_of.
  intros [Hst|Hbody].
  - destruct (status_code r =? 200) eqn:E; [by apply Z.eqb_eq in E|done].
  - destruct (status_code r =? 200); [|done]. unfold resp_json.
    destruct (body r) as [|j|e]; try done.
    destruct j; try discriminate Hbody; done.
Qed.

Lemma build_vacancy_id env im item v :
  build_vacancy env im item = Ok v →
  is_object item = true ∧ v_id v = field item "id" ∧
  v_url v = BASE_URL +:+ "/vakansii/" +:+ py_str (env_repr env) (v_id v) +:+ ".html".
Proof.
  unfold build_vacancy. destruct item as [| | | | |d]; try discriminate.
  rewrite (py_get_dict d "id"). cbn [mbind res_bind].
  repeat (match goal with
          | |- context [mbind _ ?m] =>
              lazymatch m with
              | Ok _ => fail
              | _ => destruct m; cbn [mbind res_bind]; [|discriminate]
              end
          end).
  intros [= <-]. done.
Qed.

Lemma build_vacancies_ids env im items vs :
  build_vacancies env im items = Ok vs →
  Forall (fun item => is_object item = true) items ∧
  v_id <$> vs = (fun item => field item "id") <$> items ∧
  Forall (fun v => v_url v = BASE_URL +:+ "/vakansii/"
                             +:+ py_str (env_repr env) (v_id v) +:+ ".html") vs.
Proof.
  revert vs. induction items as [|item items IH]; intros vs.
  - intros [= <-]. repeat constructor.
  - cbn [build_vacancies mbind res_bind].
    destruct (build_vacancy env im item) as [v|] eqn:Hv; [|discriminate].
    cbn [mbind res_bind].
    destruct (build_vacancies env im items) as [vs'|]; [|discriminate].
    cbn [mbind res_bind]. intros [= <-].
    destruct (build_vacancy_id _ _ _ _ Hv) as (Hobj & Hid & Hurl).
    destruct (IH vs' eq_refl) as (Hobjs & Hids & Hurls).
    split; [by constructor|]. split; [|by constructor].
    cbn. by rewrite Hid, Hids.
Qed.

(** X11.  When a page parses, it has one vacancy per entry of "data", in the
    order of the response and with the entry's id; every entry was an
    object; each url is built from the id; and the total is [meta.total],
    0 when the response has none. *)
Theorem search_result_of_ids (env : Env) (r : response) (sr : search_result) :
  status_code r = 200 →
  search_result_of env r = Ok sr →
  ∃ d items,
    body r = BodyJson (JDict d) ∧
    py_iter (dict_get_or d "data" (JList [])) = Ok items ∧
    Forall (fun item => is_object item = true) items ∧
    v_id <$> vacancies sr = (fun item => field item "id") <$> items ∧
    Forall (fun v => v_url v = BASE_URL +:+ "/vakansii/"
                               +:+ py_str (env_repr env) (v_id v) +:+ ".html")
           (vacancies sr) ∧
    total sr = default (JInt 0) (path_opt (JDict d) ["meta"; "total"]).
Proof.
  intros Hst. unfold search_result_of. rewrite Hst. cbn [Z.eqb Pos.eqb].
  unfold resp_json. destruct (body r) as [|data|e]; try discriminate.
  cbn [mbind res_bind].
  destruct data as [| | | | |d]; try discriminate.
  rewrite (py_get_dict d "meta"). cbn [mbind res_bind].
  destruct (py_get (dict_get_or d "meta" (JDict [])) "total" (JInt 0)) as [tot|] eqn:Htot;
    [|discriminate].
  cbn [mbind res_bind]. rewrite (py_get_dict d "included"). cbn [mbind res_bind].
  destruct (py_iter (dict_get_or d "included" (JList []))) as [inc|]; [|discriminate].
  cbn [mbind res_bind].
  destruct (build_included_map env inc []) as [im|]; [|discriminate].
  cbn [mbind res_bind]. rewrite (py_get_dict d "data"). cbn [mbind res_bind].
  destruct (py_iter (dict_get_or d "data" (JList []))) as [items|] eqn:Hitems;
    [|discriminate].
  cbn [mbind res_bind].
  destruct (build_vacancies env im items) as [vs|] eqn:Hvs; [|discriminate].
  cbn [mbind res_bind]. intros [= <-].
  destruct (build_vacancies_ids _ _ _ _ Hvs) as (Hobj & Hids & Hurls).
  exists d, items. do 5 (split; [done|]).
  cbn [total path_opt]. unfold dict_get_or in Htot.
  destruct (dict_get d "meta") as [meta|]; cbn in Htot |- *.
  - destruct meta as [| | | | |dm]; try discriminate Htot.
    cbn in Htot. injection Htot as <-. unfold dict_get_or.
    by destruct (dict_get dm "total").
  - by injection Htot as <-.
Qed.

Lemma search_result_of_ids_witness :
  ∃ d items,
    body (ok_response 200 python_page) = BodyJson (JDict d) ∧
    py_iter (dict_get_or d "data" (JList [])) = Ok items ∧
    Forall (fun item => is_object item = true) items ∧
    v_id <$> [scenario_vacancy "V1" "Python developer";
              scenario_vacancy "V2" "Backend engineer"]
      = (fun item => field item "id") <$> items ∧
    Forall (fun v => v_url v = BASE_URL +:+ "/vakansii/"
                               +:+ py_str (env_repr env_scenario) (v_id v) +:+ ".html")
           [scenario_vacancy "V1" "Python developer";
            scenario_vacancy "V2" "Backend engineer"] ∧
    JInt 2 = default (JInt 0) (path_opt (JDict d) ["meta"; "total"]).
Proof.
  apply (search_result_of_ids env_scenario (ok_response 200 python_page)
           {| total := JInt 2;
              vacancies := [scenario_vacancy "V1" "Python developer";
                            scenario_vacancy "V2" "Backend engineer"] |}).
  - reflexivity.
  - vm_compute. reflexivity.
Defined.

Lemma build_vacancies_non_object env im items item :
  item ∈ items → is_object item = false →
  ∃ e, build_vacancies env im items = Raise e.
Proof.
  induction items as [|item' items IH]; intros Hin Hobj; [by apply elem_of_nil in Hin|].
  cbn [build_vacancies mbind res_bind].
  destruct (build_vacancy env im item') as [v|e] eqn:Hv; [|by eauto].
  cbn [mbind res_bind].
  apply elem_of_cons in Hin as [->|Hin].
  - apply build_vacancy_id in Hv as [Hobj' _]. congruence.
  - destruct (IH Hin Hobj) as [e ->]. eauto.
Qed.

(** X12.  One entry of "data" that is not an object spoils the whole page:
    the search comes back with no vacancies and total 0, whatever the other
    entries and the reported total were. *)
Theorem search_page_all_or_nothing (env : Env) (r : response)
    (d : list (string * json)) (items : list json) (item : json) :
  body r = BodyJson (JDict d) →
  dict_get d "data" = Some (JList items) →
  item ∈ items → is_object item = false →
  page_result env (HttpResp r) = no_results.
Proof.
  intros Hbody Hdata Hin Hobj. cbn [page_result]. unfold search_result_of.
  destruct (status_code r =? 200); [|done].
  unfold resp_json. rewrite Hbody. cbn [mbind res_bind].
  rewrite (py_get_dict d "meta"). cbn [mbind res_bind].
  destruct (py_get (dict_get_or d "meta" (JDict [])) "total" (JInt 0)); [|done].
  cbn [mbind res_bind]. rewrite (py_get_dict d "included"). cbn [mbind res_bind].
  destruct (py_iter (dict_get_or d "included" (JList []))) as [inc|]; [|done].
  cbn [mbind res_bind].
  destruct (build_included_map env inc []) as [im|]; [|done].
  cbn [mbind res_bind]. rewrite (py_get_dict d "data"). cbn [mbind res_bind].
  unfold dict_get_or. rewrite Hdata. cbn [default from_option id py_iter mbind res_bind].
  by destruct (build_vacancies_non_object env im items item Hin Hobj) as [e ->].
Qed.

Lemma search_page_all_or_nothing_witness :
  page_result env_scenario (HttpResp (ok_response 200 broken_page)) = no_results.
Proof.
  apply (search_page_all_or_nothing env_scenario (ok_response 200 broken_page)
           [("meta", JDict [("total", JInt 120)]);
            ("data", JList [vacancy_item "V1" "M1"; JStr "V2"])]
           [vacancy_item "V1" "M1"; JStr "V2"] (JStr "V2")).
  - reflexivity.
  - reflexivity.
  - apply elem_of_cons. right. apply elem_of_cons. by left.
  - reflexivity.
Defined.

Lemma build_vacancy_unjoined env item v :
  build_vacancy env [] item = Ok v → unjoined v.
Proof.
  unfold build_vacancy.
  destruct (py_get item "id" JNull); cbn [mbind res_bind]; [|discriminate].
  destruct (py_get item "relationships" (JDict [])); cbn [mbind res_bind]; [|discriminate].
  destruct (related_id _ "mainInfo"); cbn [mbind res_bind]; [|discriminate].
  cbn [dict_get_or dict_get default from_option id py_get mbind res_bind].
  destruct (related_id _ "companyInfo"); cbn [mbind res_bind]; [|discriminate].
  cbn. intros [= <-]. repeat split.
Qed.

Lemma build_vacancies_unjoined env items vs :
  build_vacancies env [] items = Ok vs → Forall unjoined vs.
Proof.
  revert vs. induction items as [|item items IH]; intros vs.
  - intros [= <-]. constructor.
  - cbn [build_vacancies mbind res_bind].
    destruct (build_vacancy env [] item) as [v|] eqn:Hv; [|discriminate].
    cbn [mbind res_bind].
    destruct (build_vacancies env [] items) as [vs'|]; [|discriminate].
    cbn [mbind res_bind]. intros [= <-].
    constructor; [by eapply build_vacancy_unjoined|by apply IH].
Qed.

(** X13.  Missing joins do not fail the page: when the response carries no
    "included" resources, every vacancy of the page comes with an empty
    title, an empty company and salary bounds 0. *)
Theorem search_result_of_unjoined (env : Env) (r : response)
    (d : list (string * json)) (sr : search_result) :
  body r = BodyJson (JDict d) →
  dict_get d "included" = None ∨ dict_get d "included" = Some (JList []) →
  search_result_of env r = Ok sr →
  Forall unjoined (vacancies sr).
Proof.
  intros Hbody Hinc. unfold search_result_of.
  destruct (status_code r =? 200); [|intros [= <-]; constructor].
  unfold resp_json. rewrite Hbody. cbn [mbind res_bind].
  rewrite (py_get_dict d "meta"). cbn [mbind res_bind].
  destruct (py_get (dict_get_or d "meta" (JDict [])) "total" (JInt 0)); [|discriminate].
  cbn [mbind res_bind]. rewrite (py_get_dict d "included"). cbn [mbind res_bind].
  assert (dict_get_or d "included" (JList []) = JList []) as ->.
  { unfold dict_get_or. by destruct Hinc as [-> | ->]. }
  cbn [py_iter build_included_map mbind res_bind].
  rewrite (py_get_dict d "data"). cbn [mbind res_bind].
  destruct (py_iter (dict_get_or d "data" (JList []))) as [items|]; [|discriminate].
  cbn [mbind res_bind].
  destruct (build_vacancies env [] items) as [vs|] eqn:Hvs; [|discriminate].
  cbn [mbind res_bind]. intros [= <-]. by eapply build_vacancies_unjoined.
Qed.

Lemma search_result_of_unjoined_witness :
  Forall unjoined
    [ {| v_id := JStr "V7"; v_title := JStr ""; v_company := JStr "";
         v_salary_min := JInt 0; v_salary_max := JInt 0;
         v_url := "https://www.superjob.ru/vakansii/V7.html" |} ].
Proof.
  apply (search_result_of_unjoined env_scenario (ok_response 200 bare_page)
           [("meta", JDict [("total", JInt 1)]);
            ("data", JList [vacancy_item "V7" "M7"])]
           {| total := JInt 1;
              vacancies :=
                [ {| v_id := JStr "V7"; v_title := JStr ""; v_company := JStr "";
                     v_salary_min := JInt 0; v_salary_max := JInt 0;
                     v_url := "https://www.superjob.ru/vakansii/V7.html" |} ] |}).
  - reflexivity.
  - left. reflexivity.
  - vm_compute. reflexivity.
Defined.

(** ** More on the driver *)

(** X14.  Without search keywords, or without a resume id, in the arguments
    and in the configuration alike, [auto_apply] returns an error result and
    does nothing: no request is made and the client is unchanged. *)
Theorem auto_apply_config_error (env : Env) (keywords : option (list string))
    (limit max_pages : option Z) (resume_id : option string) (st : api) :
  or_list keywords (SuperjobConfig.search_keywords (config st)) = [] ∨
  or_str resume_id (SuperjobConfig.resume_id (config st)) = "" →
  ∃ msg, auto_apply env keywords limit max_pages resume_id st = (Ok (AutoError msg), st).
Proof.
  unfold auto_apply, get_config. unfold mbind, M_bind at 1.
  intros [-> | ->]; [by eexists|].
  destruct (or_list _ _); by eexists.
Qed.

Lemma auto_apply_config_error_witness :
  ∃ msg, auto_apply env_scenario (Some ["python"]) (Some 2) (Some 1) None api_fresh
         = (Ok (AutoError msg), api_fresh).
Proof.
  apply (auto_apply_config_error env_scenario (Some ["python"]) (Some 2) (Some 1) None
           api_fresh).
  right. reflexivity.
Defined.

Lemma add_result_entry v r s :
  ∃ e, results (add_result v r s) = (results s ++ [e])%list ∧
       e_vacancy_id e = v_id v ∧ e_success e = ar_success r ∧ entry_ok e ∧
       applied (add_result v r s) = applied s + Z.of_nat (successes [e]) ∧
       failed (add_result v r s) = failed s + Z.of_nat (failures [e]).
Proof.
  unfold add_result, entry_ok, successes, failures.
  destruct (ar_success r) eqn:Hs; eexists; (split; [reflexivity|]); cbn.
  - repeat split; try done; repeat case_decide; try done; cbn; lia.
  - repeat split; try done; repeat case_decide; try done; cbn; lia.
Qed.

Lemma successes_app es es' : successes (es ++ es') = (successes es + successes es')%nat.
Proof. unfold successes. by rewrite filter_app, length_app. Qed.

Lemma failures_app es es' : failures (es ++ es') = (failures es + failures es')%nat.
Proof. unfold failures. by rewrite filter_app, length_app. Qed.

Lemma apply_all_results env rid vs : ∀ s ids st s' ids' st',
  apply_all env rid vs s ids st = (Ok (s', ids'), st') →
  ∃ evs new,
    trace st' = (trace st ++ evs)%list ∧
    results s' = (results s ++ new)%list ∧
    e_vacancy_id <$> new = applications evs ∧
    applied s' = applied s + Z.of_nat (successes new) ∧
    failed s' = failed s + Z.of_nat (failures new) ∧
    Forall entry_ok new.
Proof.
  induction vs as [|v vs IH]; intros s ids st s' ids' st' Hrun.
  - unfold apply_all, mret, M_ret in Hrun. simplify_eq. exists [], [].
    rewrite !app_nil_r. cbn. repeat split; try done; try lia.
  - cbn [apply_all] in Hrun. unfold mbind, M_bind, lift in Hrun.
    destruct (hash_key (v_id v)) as [h|e] eqn:Hh; [|discriminate Hrun].
    destruct (bool_decide (h ∈ ids)).
    + destruct (IH _ _ _ _ _ _ Hrun) as (evs & new & Htr & Hres & Hids & Hap & Hfa & Hok).
      by exists evs, new.
    + destruct (apply_to_vacancy_run env (v_id v) rid (Some "default") false st)
        as (r & evs1 & st1 & Happ & Htr1 & _ & Ha1 & _).
      rewrite Happ in Hrun.
      destruct (IH _ _ _ _ _ _ Hrun) as (evs & new & Htr & Hres & Hids & Hap & Hfa & Hok).
      destruct (add_result_entry v r s) as (e & He & Hid & _ & Heok & Hea & Hef).
      exists (evs1 ++ evs)%list, (e :: new).
      rewrite applications_app, Ha1.
      split; [by rewrite Htr, Htr1, <- app_assoc|].
      split; [by rewrite Hres, He, <- app_assoc|].
      split; [cbn; by rewrite Hid, Hids|].
      change (e :: new) with ([e] ++ new)%list.
      rewrite successes_app, failures_app.
      split; [lia|]. split; [lia|]. by constructor.
Qed.

Lemma apply_keywords_results env limit mp rid kws : ∀ s ids st s' ids' st',
  apply_keywords env kws limit mp rid s ids st = (Ok (s', ids'), st') →
  ∃ evs new,
    trace st' = (trace st ++ evs)%list ∧
    results s' = (results s ++ new)%list ∧
    e_vacancy_id <$> new = applications evs ∧
    applied s' = applied s + Z.of_nat (successes new) ∧
    failed s' = failed s + Z.of_nat (failures new) ∧
    Forall entry_ok new.
Proof.
  induction kws as [|kw kws IH]; intros s ids st s' ids' st' Hrun.
  - unfold apply_keywords, mret, M_ret in Hrun. simplify_eq. exists [], [].
    rewrite !app_nil_r. cbn. repeat split; try done; try lia.
  - cbn [apply_keywords] in Hrun. unfold mbind, M_bind at 1 in Hrun.
    rewrite py_range_zrange in Hrun.
    destruct (fetch_pages_log env kw limit (Z.to_nat mp) 0 [] st)
      as (outs & r & st1 & Hfetch & Htr1 & _).
    rewrite Hfetch in Hrun. destruct r as [vs|e]; [|discriminate Hrun].
    unfold mbind, M_bind at 1 in Hrun.
    destruct (apply_all env rid vs _ ids st1) as [[[s1 ids1]|e] st2] eqn:Hall;
      [|discriminate Hrun].
    destruct (apply_all_results _ _ _ _ _ _ _ _ _ Hall)
      as (evs & new & Htr & Hres & Hids & Hap & Hfa & Hok).
    cbn in Hres, Hap, Hfa.
    destruct (IH _ _ _ _ _ _ Hrun) as (evs' & new' & Htr' & Hres' & Hids' & Hap' & Hfa' & Hok').
    exists (page_events kw limit 0 outs ++ evs ++ evs')%list, (new ++ new')%list.
    rewrite !applications_app, applications_page_events, fmap_app,
      successes_app, failures_app.
    split; [by rewrite Htr', Htr, Htr1, <- !app_assoc|].
    split; [by rewrite Hres', Hres, <- app_assoc|].
    split; [cbn; by rewrite Hids, Hids'|].
    split; [lia|]. split; [lia|]. by apply Forall_app.
Qed.

(** X15.  In a completed run [results] lists the applications made, in order
    and with the vacancy id each went to; [applied] is the number of entries
    that succeeded and [failed] the number that did not; and an entry has an
    error text exactly when it failed. *)
Theorem auto_apply_results env keywords limit max_pages resume_id st s st' :
  auto_apply env keywords limit max_pages resume_id st = (Ok (AutoStats s), st') →
  ∃ evs,
    trace st' = (trace st ++ evs)%list ∧
    e_vacancy_id <$> results s = applications evs ∧
    applied s = Z.of_nat (successes (results s)) ∧
    failed s = Z.of_nat (failures (results s)) ∧
    Forall entry_ok (results s).
Proof.
  unfold auto_apply, get_config. unfold mbind, M_bind at 1.
  destruct (or_list keywords _) as [|kw kws]; [discriminate|].
  destruct (String.eqb _ _); [discriminate|].
  unfold mbind, M_bind.
  destruct (apply_keywords _ _ _ _ _ _ _ _) as [[[s1 ids1]|e] st1] eqn:Hrun;
    [|discriminate].
  intros [= <- <-].
  destruct (apply_keywords_results _ _ _ _ _ _ _ _ _ _ _ Hrun)
    as (evs & new & Htr & Hres & Hids & Hap & Hfa & Hok).
  cbn in Hres, Hap, Hfa. subst new. exists evs. repeat split; try done; lia.
Qed.

Lemma auto_apply_results_witness :
  ∃ evs,
    trace scenario_run.2 = (trace api_fresh ++ evs)%list ∧
    e_vacancy_id <$> results scenario_stats = applications evs ∧
    applied scenario_stats = Z.of_nat (successes (results scenario_stats)) ∧
    failed scenario_stats = Z.of_nat (failures (results scenario_stats)) ∧
    Forall entry_ok (results scenario_stats).
Proof.
  apply (auto_apply_results env_scenario (Some ["python"; "devops"]) (Some 2) (Some 1)
           (Some "R1") api_fresh scenario_stats scenario_run.2).
  vm_compute. reflexivity.
Defined.

(** X16.  The loop over the pages of a keyword keeps every vacancy it was
    sent, in the order received: what it returns is the vacancies of all its
    search answers, one after the other. *)
Theorem fetch_pages_keeps_all (env : Env) (kw : string) (limit max_pages : Z)
    (st st' : api) (vs : list vacancy) :
  fetch_pages env kw limit (py_range max_pages) [] st = (Ok vs, st') →
  ∃ evs, trace st' = (trace st ++ evs)%list ∧ vs = fetched env evs.
Proof.
  rewrite py_range_zrange. intros Hrun.
  destruct (fetch_pages_log env kw limit (Z.to_nat max_pages) 0 [] st)
    as (outs & r & st1 & Hfetch & Htr & _ & _ & _ & _ & Hvs).
  rewrite Hfetch in Hrun. injection Hrun as -> ->.
  exists (page_events kw limit 0 outs). split; [done|]. by apply Hvs.
Qed.

Lemma fetch_pages_keeps_all_witness :
  ∃ evs,
    trace (fetch_pages env_scenario "python" 2 (py_range 1) [] api_fresh).2
      = (trace api_fresh ++ evs)%list ∧
    [scenario_vacancy "V1" "Python developer"; scenario_vacancy "V2" "Backend engineer"]
      = fetched env_scenario evs.
Proof.
  apply (fetch_pages_keeps_all env_scenario "python" 2 1 api_fresh).
  vm_compute. reflexivity.
Defined.

(** ** More on applying and messaging *)

(** X17.  [send_message] never raises.  It draws two ids and a timestamp,
    posts one chat message carrying the chat id and the text, and reports
    success exactly when that request came back with status 200 or 201 and a
    body that is empty or parses. *)
Theorem send_message_outcome (env : Env) (chat_id : json) (message : string) (st : api) :
  ∃ m mid sid now out st',
    send_message env chat_id message st = (Ok m, st') ∧
    trace st' = (trace st ++
                 [EvUuid4 mid; EvUuid4 sid; EvNow now;
                  EvPost "https://www.superjob.ru/jsapi3/0.1/chatMessage/"
                         [("include", JStr message_include)]
                         (message_payload mid sid now chat_id message) out])%list ∧
    (mr_success m = true ↔
       ∃ r, out = HttpResp r ∧ (status_code r = 200 ∨ status_code r = 201) ∧
            ∀ e, body r ≠ BodyInvalid e).
Proof.
  destruct (send_message_events env chat_id message st)
    as (m & mid & sid & now & out & st' & Hrun & Htr & Hm).
  exists m, mid, sid, now, out, st'. split; [done|]. split; [done|].
  rewrite Hm. unfold send_verdict, status_ok. destruct out as [e|r].
  - split; [done|]. by intros (r & ? & _).
  - split.
    + intros Hv. exists r. split; [done|].
      destruct (body r); try discriminate Hv;
        (split; [apply orb_true_iff in Hv as [H|H]; apply Z.eqb_eq in H; eauto|done]).
    + intros (r' & [= <-] & Hst & Hbody).
      assert ((status_code r =? 200) || (status_code r =? 201) = true) as Hok.
      { apply orb_true_iff. destruct Hst as [-> | ->]; eauto. }
      destruct (body r) as [|j|e]; [done|done|by destruct (Hbody e)].
Qed.

(** X19.  [apply_to_vacancy] never raises.  It draws three ids and posts one
    application that names the vacancy and the resume; [success] says
    whether that request came back with status 200 or 201 and a body that is
    empty or parses.  After a failure nothing else is sent and the result has
    no chat id, no chat url and no cover-letter flag; and the result has a
    chat url exactly when it has a (truthy) chat id. *)
Theorem apply_to_vacancy_outcome (env : Env) (vid : json) (rid : string)
    (cl : option string) (nwe : bool) (st : api) :
  ∃ r a b c out rest st',
    apply_to_vacancy env vid rid cl nwe st = (Ok r, st') ∧
    trace st' = (trace st ++
                 [EvUuid4 a; EvUuid4 b; EvUuid4 c;
                  EvPost "https://www.superjob.ru/jsapi3/0.1/cvApplication/"
                         [("include", JStr application_include)]
                         (application_payload a b c vid rid nwe) out] ++ rest)%list ∧
    ar_success r = send_verdict out ∧
    (ar_success r = false →
       rest = [] ∧ ar_chat_id r = JNull ∧ ar_chat_url r = None ∧
       ar_cover_letter_sent r = None) ∧
    (is_Some (ar_chat_url r) ↔ py_truthy (ar_chat_id r) = true).
Proof.
  unfold apply_to_vacancy, uuid4, m_try, session_post, mbind, M_bind.
  cbn beta iota.
  set (st1 := add_event _ st). set (st2 := add_event _ st1). set (st3 := add_event _ st2).
  set (out := env_post env st3 _ _ _). set (st4 := add_event _ st3).
  set (a := env_uuid4 env st). set (b := env_uuid4 env st1). set (c := env_uuid4 env st2).
  assert (trace st4 = (trace st ++
            [EvUuid4 a; EvUuid4 b; EvUuid4 c;
             EvPost "https://www.superjob.ru/jsapi3/0.1/cvApplication/"
               [("include", JStr application_include)]
               (application_payload a b c vid rid nwe) out] ++ [])%list) as Htr.
  { subst st4 st3 st2 st1. cbn. by rewrite <- !app_assoc. }
  assert (∀ r, ar_success r = send_verdict out →
            (ar_success r = false →
               ar_chat_id r = JNull ∧ ar_chat_url r = None ∧
               ar_cover_letter_sent r = None) →
            (is_Some (ar_chat_url r) ↔ py_truthy (ar_chat_id r) = true) →
            ∃ r' a' b' c' out' rest st',
              (Ok r : res apply_result, st4) = (Ok r', st') ∧
              trace st' = (trace st ++
                 [EvUuid4 a'; EvUuid4 b'; EvUuid4 c';
                  EvPost "https://www.superjob.ru/jsapi3/0.1/cvApplication/"
                         [("include", JStr application_include)]
                         (application_payload a' b' c' vid rid nwe) out'] ++ rest)%list ∧
              ar_success r' = send_verdict out' ∧
              (ar_success r' = false →
                 rest = [] ∧ ar_chat_id r' = JNull ∧ ar_chat_url r' = None ∧
                 ar_cover_letter_sent r' = None) ∧
              (is_Some (ar_chat_url r') ↔ py_truthy (ar_chat_id r') = true)) as Hdone.
  { intros r Hs Hf Hu. exists r, a, b, c, out, [], st4.
    split; [done|]. split; [done|]. split; [done|]. split; [|done].
    intros Hfalse. split; [done|]. by apply Hf. }
  destruct out as [e|resp].
  { apply Hdone; cbn; [done|done|]. split; [by intros [? ?]|done]. }
  assert (∃ x, (if resp_has_text resp then lift (resp_json resp) else mret (JDict [])) st4
               = (x, st4) ∧
               match x with
               | Ok _ => send_verdict (HttpResp resp) = status_ok (status_code resp)
               | Raise _ => send_verdict (HttpResp resp) = false
               end) as (x & -> & Hx).
  { unfold resp_has_text, resp_json, send_verdict, lift.
    destruct (body resp); eexists; split; reflexivity || done. }
  destruct x as [response|e]; cbn beta iota in Hx.
  2: { apply Hdone; [by rewrite Hx|done|]. split; [by intros [? ?]|done]. }
  destruct (status_ok (status_code resp)) eqn:Hok; cbn [andb].
  2: { apply Hdone; [by rewrite Hx|done|]. split; [by intros [? ?]|done]. }
  destruct (py_truthy response).
  2: { apply Hdone; [by rewrite Hx|done|]. split; [by intros [? ?]|done]. }
  unfold lift. destruct (extract_chat_id_total response) as [chat_id ->].
  destruct (py_truthy chat_id) eqn:Hchat; cbn [andb].
  2: { apply Hdone; [by rewrite Hx|done|]. cbn. rewrite Hchat.
       split; [by intros [? ?]|done]. }
  destruct (letter_truthy cl).
  2: { apply Hdone; [by rewrite Hx|done|]. cbn. rewrite Hchat. split; eauto. }
  unfold get_config.
  edestruct send_message_run as (m & evs' & st5 & -> & Htr5 & _).
  eexists _, a, b, c, (HttpResp resp), evs', st5. split; [reflexivity|].
  split; [by rewrite Htr5, Htr, app_nil_r, <- app_assoc|].
  split; [by rewrite Hx|]. split; [done|].
  cbn. rewrite Hchat. split; eauto.
Qed.

(** ** Listing resumes and chats *)

Lemma build_resumes_objects items :
  Forall (fun item => is_object item = true) items →
  build_resumes items = Ok (resume_of <$> items).
Proof.
  induction 1 as [|item items Hobj _ IH]; [done|].
  destruct item; try discriminate Hobj.
  cbn [build_resumes py_get mbind res_bind]. rewrite IH. reflexivity.
Qed.

Lemma build_resumes_ok items rs :
  build_resumes items = Ok rs → Forall (fun item => is_object item = true) items.
Proof.
  revert rs. induction items as [|item items IH]; intros rs; [constructor|].
  destruct item; try discriminate.
  cbn [build_resumes py_get mbind res_bind].
  destruct (build_resumes items) as [rs'|]; [|discriminate].
  intros _. constructor; [done|by eapply IH].
Qed.

Lemma build_chats_objects items :
  Forall (fun item => is_object item = true) items →
  build_chats items = Ok (chat_of <$> items).
Proof.
  induction 1 as [|item items Hobj _ IH]; [done|].
  destruct item; try discriminate Hobj.
  cbn [build_chats py_get mbind res_bind]. rewrite IH. reflexivity.
Qed.

Lemma build_chats_ok items cs :
  build_chats items = Ok cs → Forall (fun item => is_object item = true) items.
Proof.
  revert cs. induction items as [|item items IH]; intros cs; [constructor|].
  destruct item; try discriminate.
  cbn [build_chats py_get mbind res_bind].
  destruct (build_chats items) as [cs'|]; [|discriminate].
  intros _. constructor; [done|by eapply IH].
Qed.

Lemma data_items_ok r items :
  data_items r = Ok items →
  ∃ d, body r = BodyJson (JDict d) ∧
       py_iter (dict_get_or d "data" (JList [])) = Ok items.
Proof.
  unfold data_items, resp_json.
  destruct (body r) as [|data|e]; try discriminate. cbn [mbind res_bind].
  destruct data as [| | | | |d]; try discriminate.
  rewrite py_get_dict. cbn [mbind res_bind]. eauto.
Qed.

Lemma data_items_listed r items :
  listed (HttpResp r) items → data_items r = Ok items.
Proof.
  intros (r' & d & [= <-] & _ & Hbody & Hiter & _).
  unfold data_items, resp_json. rewrite Hbody. cbn [mbind res_bind].
  by rewrite py_get_dict.
Qed.

(** A listing function built on [data_items] and a loop over the entries. *)
Lemma listing_run {A} env url params (build : list json → res (list A))
    (of_item : json → A) (st : api) :
  (∀ items, Forall (fun item => is_object item = true) items →
            build items = Ok (of_item <$> items)) →
  (∀ items xs, build items = Ok xs →
               Forall (fun item => is_object item = true) items) →
  let out := env_get env st url params true in
  ∃ xs,
    m_try
      (resp ← session_get env url params true;
       if status_code resp =? 200
       then lift (items ← data_items resp; build items)
       else mret [])
      (fun _ => mret []) st
    = (Ok xs, add_event (EvGet url params true out) st) ∧
    (∀ items, listed out items → xs = of_item <$> items) ∧
    (xs ≠ [] → ∃ items, listed out items).
Proof.
  intros Hobj Hok out. unfold m_try, session_get, mbind, M_bind. fold out.
  destruct out as [e|r].
  { exists []. split; [done|]. split; [|done]. by intros items (? & ? & ? & _). }
  destruct (status_code r =? 200) eqn:Hst.
  2: { exists []. split; [done|]. split; [|done].
       intros items (r' & d & [= <-] & Hst' & _). rewrite Hst' in Hst. done. }
  apply Z.eqb_eq in Hst. unfold lift.
  destruct (data_items r) as [items|e] eqn:Hitems; cbn [mbind res_bind].
  2: { exists []. split; [done|]. split; [|done].
       intros items Hl. apply data_items_listed in Hl. congruence. }
  destruct (build items) as [xs|e] eqn:Hxs.
  2: { exists []. split; [done|]. split; [|done].
       intros items' Hl. pose proof (data_items_listed _ _ Hl) as Hd.
       assert (items' = items) as -> by congruence.
       destruct Hl as (? & ? & _ & _ & _ & _ & Hall).
       rewrite (Hobj _ Hall) in Hxs. done. }
  exists xs. split; [done|].
  pose proof (Hok _ _ Hxs) as Hall.
  destruct (data_items_ok _ _ Hitems) as (d & Hbody & Hiter).
  split.
  - intros items' Hl. pose proof (data_items_listed _ _ Hl) as Hd.
    assert (items' = items) as -> by congruence.
    rewrite (Hobj _ Hall) in Hxs. congruence.
  - intros _. exists items, r, d. done.
Qed.

(** X20.  [get_my_resumes] never raises and makes one GET of the resume list
    (own resumes, first 15).  When the response lists well (status 200, an
    object whose "data" is a list of objects) the result has one record per
    entry, in order, with the entry's id, type and attributes (an empty
    object when it has none); in every other case the result is the empty
    list, never a part of the list. *)
Theorem get_my_resumes_listing (env : Env) (st : api) :
  let out := env_get env st resume_url resume_params true in
  ∃ rs,
    get_my_resumes env st
      = (Ok rs, add_event (EvGet resume_url resume_params true out) st) ∧
    (∀ items, listed out items → rs = resume_of <$> items) ∧
    (rs ≠ [] → ∃ items, listed out items).
Proof.
  apply (listing_run env resume_url resume_params build_resumes resume_of st).
  - apply build_resumes_objects.
  - apply build_resumes_ok.
Qed.

(** X21.  [get_chats] never raises and makes one GET of the chat list with
    the given page limit.  When the response lists well the result has one
    record per entry, in order, with the entry's id and attributes; in every
    other case the result is the empty list. *)
Theorem get_chats_listing (env : Env) (limit : Z) (st : api) :
  let out := env_get env st chat_url (chat_params limit) true in
  ∃ cs,
    get_chats env limit st
      = (Ok cs, add_event (EvGet chat_url (chat_params limit) true out) st) ∧
    (∀ items, listed out items → cs = chat_of <$> items) ∧
    (cs ≠ [] → ∃ items, listed out items).
Proof.
  apply (listing_run env chat_url (chat_params limit) build_chats chat_of st).
  - apply build_chats_objects.
  - apply build_chats_ok.
Qed.

(** The two resumes of the example server; the second has no attributes. *)
Example get_my_resumes_example :
  (get_my_resumes env_listing api_fresh).1
  = Ok [ {| r_id := JStr "R1"; r_type := JStr "resume";
            r_attributes := JDict [("title", JStr "Dev")] |};
         {| r_id := JStr "R2"; r_type := JStr "resume"; r_attributes := JDict [] |} ].
Proof. reflexivity. Qed.

(** ** Configuration *)

Lemma has_char_lstrip c s : has_char c (lstrip s) = true → has_char c s = true.
Proof.
  induction s as [|c' s IH]; [done|]. cbn [lstrip].
  destruct (is_space c'); [|done].
  intros H. cbn [has_char]. rewrite (IH H). apply orb_true_r.
Qed.

Lemma has_char_rstrip c s : has_char c (rstrip s) = true → has_char c s = true.
Proof.
  induction s as [|c' s IH]; [done|]. cbn [rstrip has_char].
  destruct (rstrip s) as [|c'' t] eqn:E.
  - destruct (is_space c'); [done|]. cbn [has_char]. rewrite orb_false_r.
    intros ->. done.
  - cbn [has_char]. intros [->|H]%orb_true_iff; [done|].
    rewrite (IH H). apply orb_true_r.
Qed.

Lemma has_char_strip c s : has_char c s = false → has_char c (py_strip s) = false.
Proof.
  intros Hs. destruct (has_char c (py_strip s)) eqn:E; [|done].
  apply has_char_rstrip, has_char_lstrip in E. congruence.
Qed.

Lemma split_commas_parts s :
  Forall (fun part => has_char ","%char part = false) (split_commas s).
Proof.
  induction s as [|c s IH]; [by repeat constructor|].
  cbn [split_commas]. destruct (Ascii.eqb c ","%char) eqn:E.
  - by constructor.
  - destruct (split_commas s) as [|part parts]; [by repeat constructor; cbn; rewrite E|].
    apply Forall_cons in IH as [Hpart Hparts].
    constructor; [|done]. cbn. by rewrite E, Hpart.
Qed.

(** X22.  The keywords read from SEARCH_KEYWORDS are never empty and never
    contain a comma: blank items between commas are dropped. *)
Theorem keywords_of_clean (s : string) :
  Forall (fun k => k ≠ "" ∧ has_char ","%char k = false) (keywords_of s).
Proof.
  unfold keywords_of.
  pose proof (split_commas_parts s) as Hparts.
  induction Hparts as [|part parts Hpart _ IH]; [constructor|].
  cbn [omap list_omap]. cbv zeta.
  destruct (String.eqb (py_strip part) "") eqn:E; [exact IH|].
  constructor; [|exact IH]. split.
  - intros Heq. rewrite Heq in E. done.
  - by apply has_char_strip.
Qed.

Lemma py_int_blank s : py_strip s = "" → ∃ msg, py_int s = Raise (ValueError msg).
Proof. intros Hs. unfold py_int. rewrite Hs. eauto. Qed.

Lemma py_int_raises s e : py_int s = Raise e → ∃ msg, e = ValueError msg.
Proof.
  unfold py_int. cbv zeta.
  match goal with |- match ?b with _ => _ end = _ → _ => destruct b end;
    [done|]. intros [= <-]. eauto.
Qed.

(** X23.  A SEARCH_LIMIT or MAX_PAGES entry with a blank value does not fall
    back to the default: building the configuration raises [ValueError]. *)
Theorem config_of_env_blank_number (env : list (string * string)) (k s : string) :
  k = "SEARCH_LIMIT" ∨ k = "MAX_PAGES" →
  dict_get env k = Some s → py_strip s = "" →
  ∃ msg, config_of_env env = Raise (ValueError msg).
Proof.
  intros Hk Hget Hs. unfold config_of_env. cbv zeta.
  destruct (py_int_blank s Hs) as [msg He].
  destruct Hk as [-> | ->]; rewrite Hget; cbn [default from_option id].
  - rewrite He. eauto.
  - destruct (py_int (default "20" (dict_get env "SEARCH_LIMIT"))) as [z|e] eqn:E;
      cbn [mbind res_bind].
    + rewrite He. eauto.
    + destruct (py_int_raises _ _ E) as [msg' ->]. eauto.
Qed.

Lemma config_of_env_blank_number_witness :
  ∃ msg, config_of_env (foldl env_line_step [] ["RESUME_ID=7"; "MAX_PAGES="])
         = Raise (ValueError msg).
Proof.
  apply (config_of_env_blank_number _ "MAX_PAGES" "").
  - right. reflexivity.
  - reflexivity.
  - reflexivity.
Defined.

(** X24.  [load_env] skips a line that, once stripped, is blank, starts with
    "#" or has no equals sign: the result is that of the file without the
    line.  A missing file gives the empty dict. *)
Theorem load_env_ignored (before after : list string) (line : string) :
  py_strip line = "" ∨ is_comment (py_strip line) = true
  ∨ substring_in "=" (py_strip line) = false →
  load_env (Some (Ok (before ++ line :: after)%list))
  = load_env (Some (Ok (before ++ after)%list))
  ∧ load_env None = Ok [].
Proof.
  intros Hline. split; [|done].
  assert (∀ d, env_line_step d line = d) as Hstep.
  { intros d. unfold env_line_step. cbv zeta.
    destruct Hline as [-> | [-> | ->]]; [reflexivity| |].
    - by rewrite orb_true_r.
    - by rewrite orb_true_r. }
  cbn [load_env mbind res_bind]. rewrite !foldl_app. cbn [foldl]. by rewrite Hstep.
Qed.

Lemma load_env_ignored_witness :
  load_env (Some (Ok (["A=1"] ++ " # B=2" :: ["C=3"])%list))
  = load_env (Some (Ok (["A=1"] ++ ["C=3"])%list))
  ∧ load_env None = Ok [].
Proof.
  apply (load_env_ignored ["A=1"] ["C=3"] " # B=2").
  right. left. reflexivity.
Defined.

(** The example file: blank keyword items are dropped, the underscore in the
    limit is accepted, the escaped line break of the letter is unescaped. *)
Example config_of_env_lines :
  (env ← load_env (Some (Ok env_lines)); config_of_env env)
  = Ok {| SuperjobConfig.browser := "firefox";
          SuperjobConfig.resume_id := "42";
          SuperjobConfig.search_keywords := ["python"; "devops"];
          SuperjobConfig.search_limit := 10;
          SuperjobConfig.max_pages := 1;
          SuperjobConfig.cover_letter :=
            "Hi" +:+ String newline "there" |}.
Proof. reflexivity. Qed.

(** ** What a run never does, and how it can abort *)

Lemma apply_all_once env rid vs : ∀ s ids st,
  ∃ evs akeys,
    trace (apply_all env rid vs s ids st).2 = (trace st ++ evs)%list ∧
    hashed (applications evs) akeys ∧
    NoDup akeys ∧
    (∀ h, h ∈ akeys → h ∉ ids) ∧
    (∀ s' ids', (apply_all env rid vs s ids st).1 = Ok (s', ids') →
                ∀ h, h ∈ ids' ↔ h ∈ ids ∨ h ∈ akeys).
Proof.
  induction vs as [|v vs IH]; intros s ids st.
  - exists [], []. cbn. rewrite app_nil_r.
    repeat split; try constructor; try done; set_solver.
  - cbn [apply_all]. unfold mbind, M_bind, lift.
    destruct (hash_key (v_id v)) as [h|e] eqn:Hh.
    2: { exists [], []. cbn. rewrite app_nil_r.
         repeat split; try constructor; try done; set_solver. }
    destruct (bool_decide (h ∈ ids)) eqn:Hin; [apply IH|].
    apply bool_decide_eq_false in Hin.
    destruct (apply_to_vacancy_run env (v_id v) rid (Some "default") false st)
      as (r & evs1 & st1 & -> & Htr1 & _ & Ha1 & _).
    destruct (IH (add_result v r s) ({[h]} ∪ ids) st1)
      as (evs & akeys & Htr & Hak & Hnd & Hfresh & Hids).
    exists (evs1 ++ evs)%list, (h :: akeys).
    rewrite applications_app, Ha1.
    split; [by rewrite Htr, Htr1, <- app_assoc|].
    split; [by constructor|].
    split.
    { apply NoDup_cons. split; [|done]. intros Hh'. apply (Hfresh h Hh'). set_solver. }
    split.
    { intros h' [->|Hh']%elem_of_cons; [done|]. pose proof (Hfresh h' Hh'). set_solver. }
    intros s' ids' Hok h'. rewrite (Hids s' ids' Hok). set_solver.
Qed.

Lemma apply_keywords_once env limit mp rid kws : ∀ s ids st,
  ∃ evs akeys,
    trace (apply_keywords env kws limit mp rid s ids st).2 = (trace st ++ evs)%list ∧
    hashed (applications evs) akeys ∧
    NoDup akeys ∧
    (∀ h, h ∈ akeys → h ∉ ids).
Proof.
  induction kws as [|kw kws IH]; intros s ids st.
  - exists [], []. cbn. rewrite app_nil_r.
    repeat split; try constructor; try done; set_solver.
  - cbn [apply_keywords]. unfold mbind, M_bind at 1.
    rewrite py_range_zrange.
    destruct (fetch_pages_log env kw limit (Z.to_nat mp) 0 [] st)
      as (outs & r & st1 & -> & Htr1 & _).
    destruct r as [vs|e].
    2: { exists (page_events kw limit 0 outs), [].
         rewrite applications_page_events.
         repeat split; try constructor; try done; set_solver. }
    unfold mbind, M_bind at 1.
    destruct (apply_all_once env rid vs (add_found (Z.of_nat (length vs)) s) ids st1)
      as (evs & akeys & Htr & Hak & Hnd & Hfresh & Hids).
    destruct (apply_all env rid vs _ ids st1) as [[[s1 ids1]|e] st2] eqn:Hall.
    2: { exists (page_events kw limit 0 outs ++ evs)%list, akeys.
         rewrite applications_app, applications_page_events. cbn [app].
         cbn [snd] in Htr |- *.
         split; [by rewrite Htr, Htr1, <- app_assoc|]. done. }
    cbn [fst snd] in Htr, Hids. specialize (Hids s1 ids1 eq_refl).
    destruct (IH s1 ids1 st2) as (evs' & akeys' & Htr' & Hak' & Hnd' & Hfresh').
    exists (page_events kw limit 0 outs ++ evs ++ evs')%list, (akeys ++ akeys')%list.
    rewrite !applications_app, applications_page_events. cbn [app].
    split; [by rewrite Htr', Htr, Htr1, <- !app_assoc|].
    split; [by apply Forall2_app|].
    split.
    { apply NoDup_app. split; [done|]. split; [|done].
      intros h Hh Hh'. apply (Hfresh' h Hh'). apply Hids. by right. }
    intros h [Hh|Hh]%elem_of_app; [by apply Hfresh|].
    intros Hi. apply (Hfresh' h Hh). apply Hids. by left.
Qed.

(** X25.  Whatever the outcome of [auto_apply], statistics, an error result
    or an exception raised on the way, no vacancy id was applied to twice
    during the call. *)
Theorem auto_apply_never_twice (env : Env) (keywords : option (list string))
    (limit max_pages : option Z) (resume_id : option string) (st : api) :
  let st' := (auto_apply env keywords limit max_pages resume_id st).2 in
  ∃ evs akeys,
    trace st' = (trace st ++ evs)%list ∧
    hashed (applications evs) akeys ∧
    NoDup akeys.
Proof.
  cbv zeta. unfold auto_apply, get_config. unfold mbind, M_bind at 1.
  destruct (or_list keywords _) as [|kw kws].
  { exists [], []. cbn. rewrite app_nil_r. repeat split; constructor. }
  destruct (String.eqb _ _).
  { exists [], []. cbn. rewrite app_nil_r. repeat split; constructor. }
  unfold mbind, M_bind.
  match goal with
  | |- context [apply_keywords env ?ks ?l ?m ?r ?s0 ?i0 st] =>
      destruct (apply_keywords_once env l m r ks s0 i0 st)
        as (evs & akeys & Htr & Hak & Hnd & _);
      destruct (apply_keywords env ks l m r s0 i0 st) as [[[s1 ids1]|e] st1]
  end; exists evs, akeys; done.
Qed.

(** X26.  A page that has vacancies but reports a total that is not a number
    aborts the run: [auto_apply] raises [TypeError] right after the first
    search request, before any application, and returns no statistics. *)
Theorem auto_apply_bad_total (env : Env) (keywords : option (list string))
    (limit max_pages : option Z) (resume_id : option string) (st : api)
    (kw : string) (kws : list string) :
  let lim := or_int limit (SuperjobConfig.search_limit (config st)) in
  let out := env_get env st search_url (search_params kw lim 0) true in
  or_list keywords (SuperjobConfig.search_keywords (config st)) = kw :: kws →
  or_str resume_id (SuperjobConfig.resume_id (config st)) ≠ "" →
  1 ≤ or_int max_pages (SuperjobConfig.max_pages (config st)) →
  vacancies (page_result env out) ≠ [] →
  match total (page_result env out) with
  | JInt _ | JBool _ => False
  | _ => True
  end →
  ∃ msg, auto_apply env keywords limit max_pages resume_id st
         = (Raise (TypeError msg), add_event (page_event kw lim 0 out) st).
Proof.
  intros lim out Hkw Hrid Hmp Hvs Htot.
  unfold auto_apply, get_config. unfold mbind, M_bind at 1. rewrite Hkw.
  destruct (String.eqb _ _) eqn:E; [by apply String.eqb_eq in E|].
  fold lim. cbn [apply_keywords]. unfold mbind, M_bind at 1 2.
  rewrite py_range_zrange.
  destruct (Z.to_nat (or_int max_pages _)) as [|n] eqn:Hn; [lia|].
  cbn [zrange fetch_pages]. unfold mbind, M_bind at 1.
  rewrite search_vacancies_run. cbv zeta.
  change (0 * lim) with 0. fold out.
  destruct (vacancies (page_result env out)) as [|v vs]; [done|].
  unfold lift, mbind, M_bind. rewrite Z.add_0_l. unfold page_event.
  change (0 * lim) with 0.
  destruct (total (page_result env out)); try done; cbn; eauto.
Qed.

Lemma auto_apply_bad_total_witness :
  ∃ msg,
    auto_apply env_null_total (Some ["python"]) (Some 2) (Some 3) (Some "R1") api_fresh
    = (Raise (TypeError msg),
       add_event (page_event "python" 2 0 (HttpResp (ok_response 200 null_total_page)))
         api_fresh).
Proof.
  apply (auto_apply_bad_total env_null_total (Some ["python"]) (Some 2) (Some 3)
           (Some "R1") api_fresh "python" []).
  - reflexivity.
  - discriminate.
  - cbn. lia.
  - discriminate.
  - exact I.
Defined.
